(** * FCL half-space shape, its bounding-volume fits, and the distance driver

    A shallow embedding of [include/fcl/shape/halfspace.h] and
    [include/fcl/distance.h].

    The C++ code is templated over its scalar type ([ScalarT], [FCL_REAL]).
    The embedding keeps that parameter: every definition of the shape and of
    the fits lives in a section over a [Scalar] interface, which is then
    instantiated twice,
    - at the real numbers [R] (exact arithmetic), where the geometric and
      algebraic properties are stated and proved, and
    - at IEEE-754 binary64 ([PrimFloat]), where the code can be run on
      concrete inputs exactly as the compiled C++ would run on [double]. *)

From Stdlib Require Import String DecimalString.
From Stdlib Require DecimalNat.
From Stdlib Require Import ZArith List Bool Lia.
From Stdlib Require Import Reals Lra Psatz.
From Stdlib Require Floats.PrimFloat Numbers.Cyclic.Int63.Uint63.
Import ListNotations.

Set Implicit Arguments.

(* ===================================================================== *)
(** ** The scalar interface *)
(* ===================================================================== *)

(** Operations the two headers use on [ScalarT] / [FCL_REAL]: literals,
    the four arithmetic operations, unary minus, [std::abs], the square
    root hidden in Eigen's [norm()], the comparisons [==] and [<], and
    [std::numeric_limits<Scalar>::max()]. *)
Class Scalar (T : Type) : Type := {
  sofZ  : Z -> T;
  sadd  : T -> T -> T;
  ssub  : T -> T -> T;
  smul  : T -> T -> T;
  sdiv  : T -> T -> T;
  sopp  : T -> T;
  sabs  : T -> T;
  ssqrt : T -> T;
  seqb  : T -> T -> bool;
  sltb  : T -> T -> bool;
  smax  : T
}.

Declare Scope scalar_scope.
Delimit Scope scalar_scope with sc.
Infix "+" := sadd : scalar_scope.
Infix "-" := ssub : scalar_scope.
Infix "*" := smul : scalar_scope.
Infix "/" := sdiv : scalar_scope.
Notation "- x" := (sopp x) : scalar_scope.
Infix "==?" := seqb (at level 70, no associativity) : scalar_scope.
Infix "<?" := sltb : scalar_scope.
Notation "x >? y" := (sltb y x) (only parsing) : scalar_scope.
Notation "0" := (sofZ 0%Z) : scalar_scope.
Notation "1" := (sofZ 1%Z) : scalar_scope.
Notation "2" := (sofZ 2%Z) : scalar_scope.
Notation "3" := (sofZ 3%Z) : scalar_scope.

(* ===================================================================== *)
(** ** Half-space: data, constructors, transform, point queries *)
(* ===================================================================== *)

Section Shape.

Context {T : Type} {ST : Scalar T}.
Local Open Scope scalar_scope.

(** Eigen's [Vector3<Scalar>]; [v.[i]] is [v[i]] for [i] in 0..2. *)
Record Vector3 : Type := mkVector3 { vx : T; vy : T; vz : T }.

Definition vget (v : Vector3) (i : nat) : T :=
  match i with
  | O => vx v
  | S O => vy v
  | _ => vz v
  end.

Definition vset (v : Vector3) (i : nat) (a : T) : Vector3 :=
  match i with
  | O => mkVector3 a (vy v) (vz v)
  | S O => mkVector3 (vx v) a (vz v)
  | _ => mkVector3 (vx v) (vy v) a
  end.

Notation "v .[ i ]" := (vget v i) (at level 1, left associativity, format "v .[ i ]").

(** [Vector3::Constant(c)], [setZero()]. *)
Definition Constant (c : T) : Vector3 := mkVector3 c c c.
Definition Zero3 : Vector3 := Constant 0.

(** [a.dot(b)], [a.norm()], [a *= c], [a - b]. *)
Definition dot (a b : Vector3) : T :=
  a.[0] * b.[0] + a.[1] * b.[1] + a.[2] * b.[2].

Definition norm (a : Vector3) : T := ssqrt (dot a a).

Definition vscale (a : Vector3) (c : T) : Vector3 :=
  mkVector3 (a.[0] * c) (a.[1] * c) (a.[2] * c).

Definition vsub (a b : Vector3) : Vector3 :=
  mkVector3 (a.[0] - b.[0]) (a.[1] - b.[1]) (a.[2] - b.[2]).

(** Eigen's [Matrix3<Scalar>], stored by rows, and the product [M * v]. *)
Record Matrix3 : Type := mkMatrix3 { row0 : Vector3; row1 : Vector3; row2 : Vector3 }.

Definition Identity3 : Matrix3 :=
  mkMatrix3 (mkVector3 1 0 0) (mkVector3 0 1 0) (mkVector3 0 0 1).

Definition mat_vec (m : Matrix3) (v : Vector3) : Vector3 :=
  mkVector3 (dot (row0 m) v) (dot (row1 m) v) (dot (row2 m) v).

Definition col (m : Matrix3) (j : nat) : Vector3 :=
  mkVector3 (row0 m).[j] (row1 m).[j] (row2 m).[j].

Definition mat_mul (a b : Matrix3) : Matrix3 :=
  mkMatrix3
    (mkVector3 (dot (row0 a) (col b 0)) (dot (row0 a) (col b 1)) (dot (row0 a) (col b 2)))
    (mkVector3 (dot (row1 a) (col b 0)) (dot (row1 a) (col b 1)) (dot (row1 a) (col b 2)))
    (mkVector3 (dot (row2 a) (col b 0)) (dot (row2 a) (col b 1)) (dot (row2 a) (col b 2))).

Definition vadd (a b : Vector3) : Vector3 :=
  mkVector3 (a.[0] + b.[0]) (a.[1] + b.[1]) (a.[2] + b.[2]).

(** [Transform3<Scalar>]: [tf.linear()] and [tf.translation()];
    a point is mapped to [linear * x + translation]. *)
Record Transform3 : Type := mkTransform3 { linear : Matrix3; translation : Vector3 }.

Definition Identity : Transform3 := mkTransform3 Identity3 Zero3.

Definition apply_tf (tf : Transform3) (x : Vector3) : Vector3 :=
  vadd (mat_vec (linear tf) x) (translation tf).

(** [tf2 * tf1]: first [tf1], then [tf2]. *)
Definition compose (tf2 tf1 : Transform3) : Transform3 :=
  mkTransform3 (mat_mul (linear tf2) (linear tf1))
               (vadd (mat_vec (linear tf2) (translation tf1)) (translation tf2)).

(** The public state of [Halfspace<ScalarT>]: normal [n] and offset [d]. *)
Record Halfspace : Type := mkHalfspace { n : Vector3; d : T }.

(** [Halfspace::unitNormalTest()]. *)
Definition unitNormalTest (h : Halfspace) : Halfspace :=
  let l := norm (n h) in
  if l >? 0 then
    let inv_l := 1 / l in
    mkHalfspace (vscale (n h) inv_l) (d h * inv_l)
  else
    mkHalfspace (mkVector3 1 0 0) 0.

(** The three constructors. *)
Definition Halfspace_nd (n_ : Vector3) (d_ : T) : Halfspace :=
  unitNormalTest (mkHalfspace n_ d_).

Definition Halfspace_abcd (a b c d_ : T) : Halfspace :=
  unitNormalTest (mkHalfspace (mkVector3 a b c) d_).

Definition Halfspace_default : Halfspace :=
  mkHalfspace (mkVector3 1 0 0) 0.

(** [transform(const Halfspace&, const Transform3&)]. *)
Definition transform (a : Halfspace) (tf : Transform3) : Halfspace :=
  let n_ := mat_vec (linear tf) (n a) in
  let d_ := d a + dot n_ (translation tf) in
  Halfspace_nd n_ d_.

(** [Halfspace::signedDistance] and [Halfspace::distance]. *)
Definition signedDistance (h : Halfspace) (p : Vector3) : T :=
  dot (n h) p - d h.

Definition distance (h : Halfspace) (p : Vector3) : T :=
  sabs (dot (n h) p - d h).

End Shape.

Arguments Vector3 T : clear implicits.
Arguments Matrix3 T : clear implicits.
Arguments Transform3 T : clear implicits.
Arguments Halfspace T : clear implicits.

Notation "v .[ i ]" := (vget v i) (at level 1, left associativity, format "v .[ i ]").

(* ===================================================================== *)
(** ** Bounding volumes and the [ComputeBVImpl] specializations *)
(* ===================================================================== *)

(** In-place update of cell [i] of a C array; an index past the end is
    undefined behaviour in the source and leaves the model unchanged (the
    fits below only write indices inside the array). *)
Fixpoint list_set {A : Type} (l : list A) (i : nat) (a : A) : list A :=
  match l, i with
  | [], _ => []
  | _ :: t, O => a :: t
  | x :: t, S j => x :: list_set t j a
  end.

(** [for (std::size_t i = lo; i < hi; ++i) body(i)] on a state [St]. *)
Definition for_loop {St : Type} (lo hi : nat) (body : nat -> St -> St) (s : St) : St :=
  fold_left (fun acc i => body i acc) (seq lo (hi - lo)) s.

Section BV.

Context {T : Type} {ST : Scalar T}.
Local Open Scope scalar_scope.

(** The bound representations written by the fits.  Their declarations
    ([fcl/BV/*.h]) are outside the two headers; the records list the
    members the fits assign. *)
Record AABB : Type := mkAABB { min_ : Vector3 T; max_ : Vector3 T }.

Record OBB : Type := mkOBB { obb_axis : Matrix3 T; To : Vector3 T; extent : Vector3 T }.

(** [l0], [l1] are the array [l[2]]. *)
Record RSS : Type := mkRSS { rss_axis : Matrix3 T; Tr : Vector3 T; l0 : T; l1 : T; r : T }.

Record OBBRSS : Type := mkOBBRSS { obbrss_obb : OBB; obbrss_rss : RSS }.

Record kIOS_Sphere : Type := mkSphere { o : Vector3 T; sphere_r : T }.

(** [spheres] is the array [spheres[5]]. *)
Record kIOS : Type := mkkIOS { spheres : list kIOS_Sphere; num_spheres : nat; kios_obb : OBB }.

(** [KDOP<N>]: the array [dist_[N]]; [dist bv i] is [bv.dist(i)]. *)
Definition KDOP : Type := list T.
Definition dist (bv : KDOP) (i : nat) : T := nth i bv 0.
Definition set_dist (i : nat) (a : T) (bv : KDOP) : KDOP := list_set bv i a.

(** [ComputeBVImpl<ScalarT, AABBd, Halfspace<ScalarT>>]. *)
Definition ComputeBVImpl_AABB (s : Halfspace T) (tf : Transform3 T) (bv : AABB) : AABB :=
  let new_s := transform s tf in
  let n := n new_s in
  let d := d new_s in
  let bv_ := mkAABB (Constant (- smax)) (Constant smax) in
  if (n.[1] ==? 0) && (n.[2] ==? 0) then
    (* normal aligned with x axis *)
    if n.[0] <? 0 then mkAABB (vset (min_ bv_) 0 (- d)) (max_ bv_)
    else if n.[0] >? 0 then mkAABB (min_ bv_) (vset (max_ bv_) 0 d)
    else bv_
  else if (n.[0] ==? 0) && (n.[2] ==? 0) then
    (* normal aligned with y axis *)
    if n.[1] <? 0 then mkAABB (vset (min_ bv_) 1 (- d)) (max_ bv_)
    else if n.[1] >? 0 then mkAABB (min_ bv_) (vset (max_ bv_) 1 d)
    else bv_
  else if (n.[0] ==? 0) && (n.[1] ==? 0) then
    (* normal aligned with z axis *)
    if n.[2] <? 0 then mkAABB (vset (min_ bv_) 2 (- d)) (max_ bv_)
    else if n.[2] >? 0 then mkAABB (min_ bv_) (vset (max_ bv_) 2 d)
    else bv_
  else bv_.

(** [ComputeBVImpl<ScalarT, OBB<ScalarT>, Halfspace<ScalarT>>]. *)
Definition ComputeBVImpl_OBB (s : Halfspace T) (tf : Transform3 T) (bv : OBB) : OBB :=
  mkOBB Identity3 Zero3 (Constant smax).

(** [ComputeBVImpl<ScalarT, RSSd, Halfspace<ScalarT>>]. *)
Definition ComputeBVImpl_RSS (s : Halfspace T) (tf : Transform3 T) (bv : RSS) : RSS :=
  mkRSS Identity3 Zero3 smax smax smax.

(** [ComputeBVImpl<ScalarT, OBBRSSd, Halfspace<ScalarT>>]. *)
Definition ComputeBVImpl_OBBRSS (s : Halfspace T) (tf : Transform3 T) (bv : OBBRSS) : OBBRSS :=
  let obb' := ComputeBVImpl_OBB s tf (obbrss_obb bv) in
  let rss' := ComputeBVImpl_RSS s tf (obbrss_rss bv) in
  mkOBBRSS obb' rss'.

(** [ComputeBVImpl<ScalarT, kIOSd, Halfspace<ScalarT>>]: only
    [num_spheres], [obb] and [spheres[0]] are written. *)
Definition ComputeBVImpl_kIOS (s : Halfspace T) (tf : Transform3 T) (bv : kIOS) : kIOS :=
  let obb' := ComputeBVImpl_OBB s tf (kios_obb bv) in
  mkkIOS (list_set (spheres bv) 0 (mkSphere Zero3 smax)) 1 obb'.

(** The two initialisation loops shared by the three [KDOP] fits. *)
Definition kdop_init (D : nat) (bv : KDOP) : KDOP :=
  let bv := for_loop 0 D (fun i bv => set_dist i (- smax) bv) bv in
  for_loop D (2 * D) (fun i bv => set_dist i smax bv) bv.

(** [ComputeBVImpl<ScalarT, KDOPd<16>, Halfspace<ScalarT>>]. *)
Definition ComputeBVImpl_KDOP16 (s : Halfspace T) (tf : Transform3 T) (bv : KDOP) : KDOP :=
  let new_s := transform s tf in
  let n := n new_s in
  let d := d new_s in
  let D := 8%nat in
  let bv := kdop_init D bv in
  if (n.[1] ==? 0) && (n.[2] ==? 0) then
    if n.[0] >? 0 then set_dist D d bv else set_dist 0 (- d) bv
  else if (n.[0] ==? 0) && (n.[2] ==? 0) then
    if n.[1] >? 0 then set_dist (D + 1) d bv else set_dist 1 (- d) bv
  else if (n.[0] ==? 0) && (n.[1] ==? 0) then
    if n.[2] >? 0 then set_dist (D + 2) d bv else set_dist 2 (- d) bv
  else if (n.[2] ==? 0) && (n.[0] ==? n.[1]) then
    if n.[0] >? 0 then set_dist (D + 3) (n.[0] * d * 2) bv else set_dist 3 (n.[0] * d * 2) bv
  else if (n.[1] ==? 0) && (n.[0] ==? n.[2]) then
    if n.[1] >? 0 then set_dist (D + 4) (n.[0] * d * 2) bv else set_dist 4 (n.[0] * d * 2) bv
  else if (n.[0] ==? 0) && (n.[1] ==? n.[2]) then
    if n.[1] >? 0 then set_dist (D + 5) (n.[1] * d * 2) bv else set_dist 5 (n.[1] * d * 2) bv
  else if (n.[2] ==? 0) && (n.[0] + n.[1] ==? 0) then
    if n.[0] >? 0 then set_dist (D + 6) (n.[0] * d * 2) bv else set_dist 6 (n.[0] * d * 2) bv
  else if (n.[1] ==? 0) && (n.[0] + n.[2] ==? 0) then
    if n.[0] >? 0 then set_dist (D + 7) (n.[0] * d * 2) bv else set_dist 7 (n.[0] * d * 2) bv
  else bv.

(** [ComputeBVImpl<ScalarT, KDOPd<18>, Halfspace<ScalarT>>]. *)
Definition ComputeBVImpl_KDOP18 (s : Halfspace T) (tf : Transform3 T) (bv : KDOP) : KDOP :=
  let new_s := transform s tf in
  let n := n new_s in
  let d := d new_s in
  let D := 9%nat in
  let bv := kdop_init D bv in
  if (n.[1] ==? 0) && (n.[2] ==? 0) then
    if n.[0] >? 0 then set_dist D d bv else set_dist 0 (- d) bv
  else if (n.[0] ==? 0) && (n.[2] ==? 0) then
    if n.[1] >? 0 then set_dist (D + 1) d bv else set_dist 1 (- d) bv
  else if (n.[0] ==? 0) && (n.[1] ==? 0) then
    if n.[2] >? 0 then set_dist (D + 2) d bv else set_dist 2 (- d) bv
  else if (n.[2] ==? 0) && (n.[0] ==? n.[1]) then
    if n.[0] >? 0 then set_dist (D + 3) (n.[0] * d * 2) bv else set_dist 3 (n.[0] * d * 2) bv
  else if (n.[1] ==? 0) && (n.[0] ==? n.[2]) then
    if n.[1] >? 0 then set_dist (D + 4) (n.[0] * d * 2) bv else set_dist 4 (n.[0] * d * 2) bv
  else if (n.[0] ==? 0) && (n.[1] ==? n.[2]) then
    if n.[1] >? 0 then set_dist (D + 5) (n.[1] * d * 2) bv else set_dist 5 (n.[1] * d * 2) bv
  else if (n.[2] ==? 0) && (n.[0] + n.[1] ==? 0) then
    if n.[0] >? 0 then set_dist (D + 6) (n.[0] * d * 2) bv else set_dist 6 (n.[0] * d * 2) bv
  else if (n.[1] ==? 0) && (n.[0] + n.[2] ==? 0) then
    if n.[0] >? 0 then set_dist (D + 7) (n.[0] * d * 2) bv else set_dist 7 (n.[0] * d * 2) bv
  else if (n.[0] ==? 0) && (n.[1] + n.[2] ==? 0) then
    if n.[1] >? 0 then set_dist (D + 8) (n.[1] * d * 2) bv else set_dist 8 (n.[1] * d * 2) bv
  else bv.

(** [ComputeBVImpl<ScalarT, KDOPd<24>, Halfspace<ScalarT>>]. *)
Definition ComputeBVImpl_KDOP24 (s : Halfspace T) (tf : Transform3 T) (bv : KDOP) : KDOP :=
  let new_s := transform s tf in
  let n := n new_s in
  let d := d new_s in
  let D := 12%nat in
  let bv := kdop_init D bv in
  if (n.[1] ==? 0) && (n.[2] ==? 0) then
    if n.[0] >? 0 then set_dist D d bv else set_dist 0 (- d) bv
  else if (n.[0] ==? 0) && (n.[2] ==? 0) then
    if n.[1] >? 0 then set_dist (D + 1) d bv else set_dist 1 (- d) bv
  else if (n.[0] ==? 0) && (n.[1] ==? 0) then
    if n.[2] >? 0 then set_dist (D + 2) d bv else set_dist 2 (- d) bv
  else if (n.[2] ==? 0) && (n.[0] ==? n.[1]) then
    if n.[0] >? 0 then set_dist (D + 3) (n.[0] * d * 2) bv else set_dist 3 (n.[0] * d * 2) bv
  else if (n.[1] ==? 0) && (n.[0] ==? n.[2]) then
    if n.[1] >? 0 then set_dist (D + 4) (n.[0] * d * 2) bv else set_dist 4 (n.[0] * d * 2) bv
  else if (n.[0] ==? 0) && (n.[1] ==? n.[2]) then
    if n.[1] >? 0 then set_dist (D + 5) (n.[1] * d * 2) bv else set_dist 5 (n.[1] * d * 2) bv
  else if (n.[2] ==? 0) && (n.[0] + n.[1] ==? 0) then
    if n.[0] >? 0 then set_dist (D + 6) (n.[0] * d * 2) bv else set_dist 6 (n.[0] * d * 2) bv
  else if (n.[1] ==? 0) && (n.[0] + n.[2] ==? 0) then
    if n.[0] >? 0 then set_dist (D + 7) (n.[0] * d * 2) bv else set_dist 7 (n.[0] * d * 2) bv
  else if (n.[0] ==? 0) && (n.[1] + n.[2] ==? 0) then
    if n.[1] >? 0 then set_dist (D + 8) (n.[1] * d * 2) bv else set_dist 8 (n.[1] * d * 2) bv
  else if (n.[0] + n.[2] ==? 0) && (n.[0] + n.[1] ==? 0) then
    if n.[0] >? 0 then set_dist (D + 9) (n.[0] * d * 3) bv else set_dist 9 (n.[0] * d * 3) bv
  else if (n.[0] + n.[1] ==? 0) && (n.[1] + n.[2] ==? 0) then
    if n.[0] >? 0 then set_dist (D + 10) (n.[0] * d * 3) bv else set_dist 10 (n.[0] * d * 3) bv
  else if (n.[0] + n.[1] ==? 0) && (n.[0] + n.[2] ==? 0) then
    if n.[1] >? 0 then set_dist (D + 11) (n.[1] * d * 3) bv else set_dist 11 (n.[1] * d * 3) bv
  else bv.

End BV.

Arguments AABB T : clear implicits.
Arguments OBB T : clear implicits.
Arguments RSS T : clear implicits.
Arguments OBBRSS T : clear implicits.
Arguments kIOS_Sphere T : clear implicits.
Arguments kIOS T : clear implicits.
Arguments KDOP T : clear implicits.

(* ===================================================================== *)
(** ** The two scalar instances *)
(* ===================================================================== *)

(** [std::numeric_limits<double>::max()] is (2 - 2^-52) * 2^1023, an
    integer. *)
Definition DBL_MAX_Z : Z := Eval vm_compute in (2 ^ 1024 - 2 ^ 971)%Z.

(** Exact arithmetic: the scalar is a real number, [==] and [<] are the
    decided order of [R]. *)
Definition Rmax_value : R := IZR DBL_MAX_Z.
Definition Reqb (x y : R) : bool := if Req_dec_T x y then true else false.
Definition Rltb (x y : R) : bool := if Rlt_dec x y then true else false.

#[export] Instance Scalar_R : Scalar R := {|
  sofZ := IZR;
  sadd := Rplus;
  ssub := Rminus;
  smul := Rmult;
  sdiv := Rdiv;
  sopp := Ropp;
  sabs := Rabs;
  ssqrt := sqrt;
  seqb := Reqb;
  sltb := Rltb;
  smax := Rmax_value
|}.

(** IEEE-754 binary64, the [double] of [FCL_REAL]. *)
Definition float_of_Z (z : Z) : PrimFloat.float :=
  match z with
  | Z0 => PrimFloat.zero
  | Zpos _ => PrimFloat.of_uint63 (Uint63.of_Z z)
  | Zneg p => PrimFloat.opp (PrimFloat.of_uint63 (Uint63.of_Z (Zpos p)))
  end.

Definition DBL_MAX : PrimFloat.float := PrimFloat.next_down PrimFloat.infinity.

#[export] Instance Scalar_double : Scalar PrimFloat.float := {|
  sofZ := float_of_Z;
  sadd := PrimFloat.add;
  ssub := PrimFloat.sub;
  smul := PrimFloat.mul;
  sdiv := PrimFloat.div;
  sopp := PrimFloat.opp;
  sabs := PrimFloat.abs;
  ssqrt := PrimFloat.sqrt;
  seqb := PrimFloat.eqb;
  sltb := PrimFloat.ltb;
  smax := DBL_MAX
|}.


(* ===================================================================== *)
(** ** The distance driver ([distance.h]) *)
(* ===================================================================== *)

(** The enumerations come from headers outside the two embedded ones.
    [OBJECT_TYPE] lists the object kinds; the driver only compares against
    [OT_GEOM] and [OT_BVH].  A [NODE_TYPE] is used as an index into the
    dense matrix and is printed as a number, so it is its ordinal.
    [GJKSolverType] is the integer under the enumeration, with the two
    enumerators the driver switches on. *)
Inductive OBJECT_TYPE : Type := OT_UNKNOWN | OT_BVH | OT_GEOM | OT_OCTREE.

Definition OBJECT_TYPE_eqb (a b : OBJECT_TYPE) : bool :=
  match a, b with
  | OT_UNKNOWN, OT_UNKNOWN | OT_BVH, OT_BVH | OT_GEOM, OT_GEOM | OT_OCTREE, OT_OCTREE => true
  | _, _ => false
  end.

Definition NODE_TYPE : Type := nat.

Definition GJKSolverType : Type := Z.
Definition GST_LIBCCD : GJKSolverType := 0%Z.
Definition GST_INDEP : GJKSolverType := 1%Z.

(** The template argument [NarrowPhaseSolver] of the driver. *)
Inductive NarrowPhaseSolver : Type := GJKSolver_libccd | GJKSolver_indep.

(** [operator<<] on a [NODE_TYPE]: its decimal ordinal. *)
Definition show_node_type (t : NODE_TYPE) : string :=
  NilZero.string_of_uint (Nat.to_uint t).

(** The line the driver streams to [std::cerr]. *)
Definition warning_unsupported (node_type1 node_type2 : NODE_TYPE) : string :=
  ("Warning: distance function between node type " ++ show_node_type node_type1
   ++ " and node type " ++ show_node_type node_type2
   ++ " is not supported")%string.

Section Driver.

Context {T : Type} {ST : Scalar T}.

(** What the driver does not look into: the payload of a geometry, the
    state of a solver instance, the remaining fields of a request, and the
    result object. *)
Variables GeomData SolverInst RequestData DistanceResult : Type.

(** [CollisionGeometry<Scalar>]: the two virtual getters and the rest. *)
Record CollisionGeometry : Type := mkCollisionGeometry {
  getObjectType : OBJECT_TYPE;
  getNodeType : NODE_TYPE;
  geom_data : GeomData
}.

Record CollisionObject : Type := mkCollisionObject {
  collisionGeometry : CollisionGeometry;
  getTransform : Transform3 T
}.

Record DistanceRequest : Type := mkDistanceRequest {
  gjk_solver_type : GJKSolverType;
  request_data : RequestData
}.

(** A solver pointer is an address in the store of solver instances. *)
Definition loc : Type := nat.

(** A cell of [DistanceFunctionMatrix::distance_matrix]: the routine reads
    the two operands, the solver instance behind the pointer it is given
    and the request, updates the result object and returns a distance. *)
Definition DistanceFunc : Type :=
  CollisionGeometry -> Transform3 T -> CollisionGeometry -> Transform3 T ->
  SolverInst -> DistanceRequest -> DistanceResult -> T * DistanceResult.

Definition DistanceFunctionMatrix : Type :=
  NODE_TYPE -> NODE_TYPE -> option DistanceFunc.

(** The cells the constructor of [DistanceFunctionMatrix<GJKSolver>]
    registers ([None] is a null entry), and the default constructor of each
    solver class. *)
Variable distance_matrix : NarrowPhaseSolver -> DistanceFunctionMatrix.
Variable default_solver : NarrowPhaseSolver -> SolverInst.

(** Observable steps of a call, in program order. *)
Inductive Event : Type :=
| EvNew (l : loc)
| EvDelete (l : loc)
| EvTableInit (ns : NarrowPhaseSolver)
| EvCerr (line : string)
| EvCall (ns : NarrowPhaseSolver) (row col : NODE_TYPE)
         (oA : CollisionGeometry) (tfA : Transform3 T)
         (oB : CollisionGeometry) (tfB : Transform3 T) (nsolver : loc).

(** Program state around a call: the solver instances alive (a cell is
    [Some] while its object lives), which function-local static tables
    have been constructed, and the steps taken so far. *)
Record World : Type := mkWorld {
  heap : list (option SolverInst);
  table_built : NarrowPhaseSolver -> bool;
  trace : list Event
}.

(** State passing with undefined behaviour as [None]. *)
Definition M (A : Type) : Type := World -> option (A * World).

Definition ret {A : Type} (a : A) : M A := fun w => Some (a, w).

Definition bind {A B : Type} (m : M A) (k : A -> M B) : M B :=
  fun w => match m w with
           | Some (a, w') => k a w'
           | None => None
           end.

Notation "x <- m ;; k" := (bind m (fun x => k))
  (at level 61, m at next level, right associativity).
Notation "m ;; k" := (bind m (fun _ => k))
  (at level 61, right associativity).

Definition emit (e : Event) : M unit :=
  fun w => Some (tt, mkWorld (heap w) (table_built w) (trace w ++ [e])).

(** [new NarrowPhaseSolver()]. *)
Definition new_solver (ns : NarrowPhaseSolver) : M loc :=
  fun w =>
    let l := length (heap w) in
    Some (l, mkWorld (heap w ++ [Some (default_solver ns)]) (table_built w)
                     (trace w ++ [EvNew l])).

(** [delete nsolver]; deleting what is not alive is undefined. *)
Definition delete_solver (l : loc) : M unit :=
  fun w =>
    match nth_error (heap w) l with
    | Some (Some _) =>
        Some (tt, mkWorld (list_set (heap w) l None) (table_built w)
                          (trace w ++ [EvDelete l]))
    | _ => None
    end.

(** A solver object with automatic storage: [Solver solver; ... &solver]. *)
Definition with_local_solver {A : Type} (ns : NarrowPhaseSolver) (body : loc -> M A) : M A :=
  fun w =>
    let l := length (heap w) in
    match body l (mkWorld (heap w ++ [Some (default_solver ns)]) (table_built w) (trace w)) with
    | Some (a, w') => Some (a, mkWorld (list_set (heap w') l None) (table_built w') (trace w'))
    | None => None
    end.

(** Reading through a solver pointer; a dangling pointer is undefined. *)
Definition deref (l : loc) : M SolverInst :=
  fun w =>
    match nth_error (heap w) l with
    | Some (Some s) => Some (s, w)
    | _ => None
    end.

Definition NarrowPhaseSolver_eqb (a b : NarrowPhaseSolver) : bool :=
  match a, b with
  | GJKSolver_libccd, GJKSolver_libccd | GJKSolver_indep, GJKSolver_indep => true
  | _, _ => false
  end.

(** [getDistanceFunctionLookTable<GJKSolver>()]: the function-local static
    is constructed by the first call and returned by every call. *)
Definition getDistanceFunctionLookTable (ns : NarrowPhaseSolver) : M DistanceFunctionMatrix :=
  fun w =>
    if table_built w ns then Some (distance_matrix ns, w)
    else Some (distance_matrix ns,
               mkWorld (heap w)
                       (fun ns' => if NarrowPhaseSolver_eqb ns' ns then true else table_built w ns')
                       (trace w ++ [EvTableInit ns])).

(** Calling a stored routine. *)
Definition call_entry (ns : NarrowPhaseSolver) (f : DistanceFunc) (row col : NODE_TYPE)
    (oA : CollisionGeometry) (tfA : Transform3 T)
    (oB : CollisionGeometry) (tfB : Transform3 T)
    (nsolver : loc) (request : DistanceRequest) (result : DistanceResult)
    : M (T * DistanceResult) :=
  s <- deref nsolver ;;
  emit (EvCall ns row col oA tfA oB tfB nsolver) ;;
  ret (f oA tfA oB tfB s request result).

(** [distance<NarrowPhaseSolver>(const CollisionGeometry*, tf1,
    const CollisionGeometry*, tf2, nsolver_, request, result)].
    [nsolver_ = None] is the null pointer. *)
Definition distance_solver_geom (ns : NarrowPhaseSolver)
    (o1 : CollisionGeometry) (tf1 : Transform3 T)
    (o2 : CollisionGeometry) (tf2 : Transform3 T)
    (nsolver_ : option loc) (request : DistanceRequest) (result : DistanceResult)
    : M (T * DistanceResult) :=
  nsolver <- match nsolver_ with
             | Some l => ret l
             | None => new_solver ns
             end ;;
  looktable <- getDistanceFunctionLookTable ns ;;
  let object_type1 := getObjectType o1 in
  let node_type1 := getNodeType o1 in
  let object_type2 := getObjectType o2 in
  let node_type2 := getNodeType o2 in
  let res := smax in
  out <- (if OBJECT_TYPE_eqb object_type1 OT_GEOM && OBJECT_TYPE_eqb object_type2 OT_BVH then
            match looktable node_type2 node_type1 with
            | None =>
                emit (EvCerr (warning_unsupported node_type1 node_type2)) ;;
                ret (res, result)
            | Some f =>
                call_entry ns f node_type2 node_type1 o2 tf2 o1 tf1 nsolver request result
            end
          else
            match looktable node_type1 node_type2 with
            | None =>
                emit (EvCerr (warning_unsupported node_type1 node_type2)) ;;
                ret (res, result)
            | Some f =>
                call_entry ns f node_type1 node_type2 o1 tf1 o2 tf2 nsolver request result
            end) ;;
  match nsolver_ with
  | Some _ => ret tt
  | None => delete_solver nsolver
  end ;;
  ret out.

(** [distance<NarrowPhaseSolver>(const CollisionObject*, const CollisionObject*,
    nsolver, request, result)]. *)
Definition distance_solver_obj (ns : NarrowPhaseSolver)
    (o1 o2 : CollisionObject)
    (nsolver : option loc) (request : DistanceRequest) (result : DistanceResult)
    : M (T * DistanceResult) :=
  distance_solver_geom ns
    (collisionGeometry o1) (getTransform o1)
    (collisionGeometry o2) (getTransform o2)
    nsolver request result.

(** [distance<Scalar>(const CollisionObject*, const CollisionObject*,
    request, result)]. *)
Definition distance_obj (o1 o2 : CollisionObject)
    (request : DistanceRequest) (result : DistanceResult) : M (T * DistanceResult) :=
  if Z.eqb (gjk_solver_type request) GST_LIBCCD then
    with_local_solver GJKSolver_libccd (fun solver =>
      distance_solver_obj GJKSolver_libccd o1 o2 (Some solver) request result)
  else if Z.eqb (gjk_solver_type request) GST_INDEP then
    with_local_solver GJKSolver_indep (fun solver =>
      distance_solver_obj GJKSolver_indep o1 o2 (Some solver) request result)
  else
    ret (sofZ (-1), result).

(** [distance<Scalar>(const CollisionGeometry*, tf1, const CollisionGeometry*,
    tf2, request, result)]. *)
Definition distance_geom
    (o1 : CollisionGeometry) (tf1 : Transform3 T)
    (o2 : CollisionGeometry) (tf2 : Transform3 T)
    (request : DistanceRequest) (result : DistanceResult) : M (T * DistanceResult) :=
  if Z.eqb (gjk_solver_type request) GST_LIBCCD then
    with_local_solver GJKSolver_libccd (fun solver =>
      distance_solver_geom GJKSolver_libccd o1 tf1 o2 tf2 (Some solver) request result)
  else if Z.eqb (gjk_solver_type request) GST_INDEP then
    with_local_solver GJKSolver_indep (fun solver =>
      distance_solver_geom GJKSolver_indep o1 tf1 o2 tf2 (Some solver) request result)
  else
    ret (sofZ (-1), result).

End Driver.

Arguments EvNew {T GeomData} l.
Arguments EvDelete {T GeomData} l.
Arguments EvTableInit {T GeomData} ns.
Arguments EvCerr {T GeomData} line.

(* ===================================================================== *)
(** ** What a bound contains *)
(* ===================================================================== *)

Section Containment.

Context {T : Type} {ST : Scalar T}.
Local Open Scope scalar_scope.

(** [a <= b] written with the interface's [<]. *)
Definition sleb (a b : T) : bool := negb (b <? a).

(** The closed half-space [{x | n.x <= d}] of the class comment. *)
Definition halfspace_contains (h : Halfspace T) (p : Vector3 T) : bool :=
  sleb (dot (n h) p) (d h).

(** Modelled from the spec: the point-containment tests of the bound
    representations live in the [fcl/BV] headers, which are not among the
    sources.  An axis-aligned box is given by its min and max corner. *)
Definition AABB_contain (bv : AABB T) (p : Vector3 T) : bool :=
  forallb (fun i => sleb (min_ bv).[i] p.[i] && sleb p.[i] (max_ bv).[i]) (seq 0 3).

(** Modelled from the spec: the oriented box has a centre [To], axes (the
    columns of [axis]) and half-extents along them. *)
Definition OBB_contain (bv : OBB T) (p : Vector3 T) : bool :=
  let local_p := vsub p (To bv) in
  forallb (fun i => let proj := dot local_p (col (obb_axis bv) i) in
                    sleb (- (extent bv).[i]) proj && sleb proj (extent bv).[i])
          (seq 0 3).

(** Modelled from the spec: a rectangle swept sphere has an origin [Tr],
    axes, the two side lengths of its rectangle and a radius; it contains
    the points within the radius of the rectangle. *)
Definition clamp (lo hi a : T) : T :=
  if a <? lo then lo else if hi <? a then hi else a.

Definition RSS_contain (bv : RSS T) (p : Vector3 T) : bool :=
  let local_p := vsub p (Tr bv) in
  let q0 := dot local_p (col (rss_axis bv) 0) in
  let q1 := dot local_p (col (rss_axis bv) 1) in
  let q2 := dot local_p (col (rss_axis bv) 2) in
  let e0 := q0 - clamp 0 (l0 bv) q0 in
  let e1 := q1 - clamp 0 (l1 bv) q1 in
  sleb (e0 * e0 + e1 * e1 + q2 * q2) (r bv * r bv).

(** Modelled from the spec: the composite is inside both of its parts. *)
Definition OBBRSS_contain (bv : OBBRSS T) (p : Vector3 T) : bool :=
  OBB_contain (obbrss_obb bv) p && RSS_contain (obbrss_rss bv) p.

(** Modelled from the spec: the hybrid is the common part of its
    [num_spheres] spheres and its box. *)
Definition Sphere_contain (s : kIOS_Sphere T) (p : Vector3 T) : bool :=
  let v := vsub (o s) p in
  sleb (dot v v) (sphere_r s * sphere_r s).

Definition kIOS_contain (bv : kIOS T) (p : Vector3 T) : bool :=
  forallb (fun s => Sphere_contain s p) (firstn (num_spheres bv) (spheres bv))
  && OBB_contain (kios_obb bv) p.

(** Modelled from the spec: a [2k]-entry polytope keeps, for each of its
    [k] fixed directions, a lower support value at index [i] and an upper
    one at index [k + i]: the coordinate axes, then the 2-term diagonals,
    then the 3-term diagonals.  The table of directions ([fcl/BV/kDOP.h])
    is not among the sources: the 2-term directions are listed in the
    order in which the fits test them, the 3-term directions in the
    library's order [x+y-z], [x+z-y], [y+z-x]. *)
Definition kdop_direction_values (p : Vector3 T) : list T :=
  [ p.[0]; p.[1]; p.[2];
    p.[0] + p.[1]; p.[0] + p.[2]; p.[1] + p.[2];
    p.[0] - p.[1]; p.[0] - p.[2]; p.[1] - p.[2];
    p.[0] + p.[1] - p.[2]; p.[0] + p.[2] - p.[1]; p.[1] + p.[2] - p.[0] ].

Definition kdop_direction_value (i : nat) (p : Vector3 T) : T :=
  nth i (kdop_direction_values p) 0.

Definition KDOP_inside (D : nat) (bv : KDOP T) (p : Vector3 T) : bool :=
  forallb (fun i => sleb (dist bv i) (kdop_direction_value i p)
                    && sleb (kdop_direction_value i p) (dist bv (D + i)))
          (seq 0 D).

(** The bound with every face at [-max] / [+max]. *)
Definition universal_AABB : AABB T := mkAABB (Constant (- smax)) (Constant smax).

Definition universal_KDOP (D : nat) : KDOP T :=
  (repeat (- smax) D ++ repeat smax D)%list.

(** How many entries of a polytope differ from both [-max] and [+max]. *)
Definition is_finite_entry (a : T) : bool :=
  negb (a ==? - smax) && negb (a ==? smax).

Definition count_finite (bv : KDOP T) : nat :=
  List.length (filter is_finite_entry bv).

End Containment.

(* ===================================================================== *)
(** ** Vocabulary of the statements *)
(* ===================================================================== *)

(** A unit normal, an orthonormal rotation (its columns are orthonormal),
    a rigid transform. *)
Definition unit_normal (h : Halfspace R) : Prop := dot (n h) (n h) = 1%R.

Definition orthonormal (m : Matrix3 R) : Prop :=
  forall i j, (i < 3)%nat -> (j < 3)%nat ->
    dot (col m i) (col m j) = if Nat.eqb i j then 1%R else 0%R.

Definition rigid (tf : Transform3 R) : Prop := orthonormal (linear tf).

(** A quarter turn about the z axis followed by a shift, and a quarter turn
    about the x axis followed by another shift. *)
Definition quarter_turn_z : Transform3 R :=
  mkTransform3
    (mkMatrix3 (mkVector3 0 (-1) 0) (mkVector3 1 0 0) (mkVector3 0 0 1))%R
    (mkVector3 1 2 3)%R.

Definition quarter_turn_x : Transform3 R :=
  mkTransform3
    (mkMatrix3 (mkVector3 1 0 0) (mkVector3 0 0 (-1)) (mkVector3 0 1 0))%R
    (mkVector3 (-4) 0 5)%R.

(** How many components of a vector compare equal to [0.0]. *)
Definition count_zero {T : Type} {ST : Scalar T} (v : Vector3 T) : nat :=
  List.length (filter (fun i => seqb v.[i] (sofZ 0)) (seq 0 3)).

(** The half-space [x <= 5] of the worked examples, in both instances. *)
Definition halfspace_x_le_5 {T : Type} {ST : Scalar T} : Halfspace T :=
  Halfspace_abcd (sofZ 1) (sofZ 0) (sofZ 0) (sofZ 5).

(** The two shapes of transformed normal left out of the soundness
    statement for the polytope fits: a positive multiple of [(1,0,1)], and
    a multiple of [(1,-1,-1)]. *)
Definition positive_xz_diagonal (v : Vector3 R) : Prop :=
  v.[1] = 0%R /\ v.[0] = v.[2] /\ (0 < v.[0])%R.

Definition xyz_antidiagonal (v : Vector3 R) : Prop :=
  (v.[0] + v.[2] = 0)%R /\ (v.[0] + v.[1] = 0)%R.

(** The bounds the box, swept-sphere and sphere fits write. *)
Definition universal_OBB {T : Type} {ST : Scalar T} : OBB T :=
  mkOBB Identity3 Zero3 (Constant smax).

Definition universal_RSS {T : Type} {ST : Scalar T} : RSS T :=
  mkRSS Identity3 Zero3 smax smax smax.

Definition universal_Sphere {T : Type} {ST : Scalar T} : kIOS_Sphere T :=
  mkSphere Zero3 smax.

(** Concrete inputs of the worked examples, in both instances: the
    half-spaces [x >= 0], [(x + z) / sqrt 2 <= 3 / sqrt 2],
    [(x + y) / sqrt 2 <= 3] and [x - y - z <= 0]; the origin, the point
    [(0, 1, 0)] and the corner [(max, max, 0)]; bounds to be overwritten. *)
Definition halfspace_x_ge_0 {T : Type} {ST : Scalar T} : Halfspace T :=
  Halfspace_abcd (sofZ (-1)) (sofZ 0) (sofZ 0) (sofZ 0).

Definition halfspace_xz {T : Type} {ST : Scalar T} : Halfspace T :=
  Halfspace_abcd (sofZ 1) (sofZ 0) (sofZ 1) (sofZ 3).

Definition halfspace_xy {T : Type} {ST : Scalar T} : Halfspace T :=
  Halfspace_nd (mkVector3 (sdiv (sofZ 1) (ssqrt (sofZ 2)))
                          (sdiv (sofZ 1) (ssqrt (sofZ 2)))
                          (sofZ 0))
               (sofZ 3).

Definition halfspace_antidiagonal {T : Type} {ST : Scalar T} : Halfspace T :=
  Halfspace_abcd (sofZ 1) (sofZ (-1)) (sofZ (-1)) (sofZ 0).

Definition unit_y {T : Type} {ST : Scalar T} : Vector3 T :=
  mkVector3 (sofZ 0) (sofZ 1) (sofZ 0).

Definition origin {T : Type} {ST : Scalar T} : Vector3 T := Zero3.

Definition far_corner {T : Type} {ST : Scalar T} : Vector3 T :=
  mkVector3 smax smax (sofZ 0).

Definition blank_KDOP {T : Type} {ST : Scalar T} (N : nat) : KDOP T :=
  repeat (sofZ 0) N.

Definition blank_AABB {T : Type} {ST : Scalar T} : AABB T :=
  mkAABB Zero3 Zero3.

Definition blank_OBB {T : Type} {ST : Scalar T} : OBB T :=
  mkOBB Identity3 Zero3 Zero3.

Definition blank_RSS {T : Type} {ST : Scalar T} : RSS T :=
  mkRSS Identity3 Zero3 (sofZ 0) (sofZ 0) (sofZ 0).

Definition blank_kIOS {T : Type} {ST : Scalar T} : kIOS T :=
  mkkIOS (repeat (mkSphere Zero3 (sofZ 0)) 5) 0 blank_OBB.

Definition universal_OBBRSS {T : Type} {ST : Scalar T} : OBBRSS T :=
  mkOBBRSS universal_OBB universal_RSS.

Definition universal_kIOS {T : Type} {ST : Scalar T} : kIOS T :=
  mkkIOS [universal_Sphere] 1 universal_OBB.

(* ===================================================================== *)
(** ** Vocabulary of the driver statements *)
(* ===================================================================== *)

Section DriverVocabulary.

Context {T : Type} {ST : Scalar T}.
Variables GeomData SolverInst RequestData DistanceResult : Type.
Variable distance_matrix :
  NarrowPhaseSolver -> DistanceFunctionMatrix (T:=T) GeomData SolverInst RequestData DistanceResult.

(** Whether the driver takes its first branch: a primitive first operand
    and a hierarchy second operand. *)
Definition is_geom_bvh (o1 o2 : CollisionGeometry GeomData) : bool :=
  OBJECT_TYPE_eqb (getObjectType o1) OT_GEOM && OBJECT_TYPE_eqb (getObjectType o2) OT_BVH.

(** The cell the driver reads for a pair of operands. *)
Definition consulted_cell (ns : NarrowPhaseSolver) (o1 o2 : CollisionGeometry GeomData)
    : option (DistanceFunc (T:=T) GeomData SolverInst RequestData DistanceResult) :=
  if is_geom_bvh o1 o2
  then distance_matrix ns (getNodeType o2) (getNodeType o1)
  else distance_matrix ns (getNodeType o1) (getNodeType o2).

(** The construction of the static table, when a call is the first to
    ask for it. *)
Definition table_events (ns : NarrowPhaseSolver) (w : World (T:=T) GeomData SolverInst)
    : list (Event (T:=T) GeomData) :=
  if table_built w ns then [] else [EvTableInit ns].

Definition table_built_after (ns : NarrowPhaseSolver) (w : World (T:=T) GeomData SolverInst)
    : NarrowPhaseSolver -> bool :=
  if table_built w ns then table_built w
  else fun ns' => if NarrowPhaseSolver_eqb ns' ns then true else table_built w ns'.

Definition is_alloc_event (e : Event (T:=T) GeomData) : bool :=
  match e with
  | EvNew _ | EvDelete _ => true
  | _ => false
  end.

Definition is_call_event (e : Event (T:=T) GeomData) : bool :=
  match e with
  | EvCall _ _ _ _ _ _ _ _ => true
  | _ => false
  end.

(** The routine call the driver makes for a pair of operands: the step
    it records and the value it hands back. *)
Definition call_event (ns : NarrowPhaseSolver)
    (o1 : CollisionGeometry GeomData) (tf1 : Transform3 T)
    (o2 : CollisionGeometry GeomData) (tf2 : Transform3 T) (l : loc)
    : Event (T:=T) GeomData :=
  if is_geom_bvh o1 o2
  then EvCall ns (getNodeType o2) (getNodeType o1) o2 tf2 o1 tf1 l
  else EvCall ns (getNodeType o1) (getNodeType o2) o1 tf1 o2 tf2 l.

Definition call_value (f : DistanceFunc (T:=T) GeomData SolverInst RequestData DistanceResult)
    (o1 : CollisionGeometry GeomData) (tf1 : Transform3 T)
    (o2 : CollisionGeometry GeomData) (tf2 : Transform3 T)
    (s : SolverInst) (request : DistanceRequest RequestData) (result : DistanceResult)
    : T * DistanceResult :=
  if is_geom_bvh o1 o2
  then f o2 tf2 o1 tf1 s request result
  else f o1 tf1 o2 tf2 s request result.

(** The steps a run added to the trace. *)
Definition new_events (w w' : World (T:=T) GeomData SolverInst) : list (Event (T:=T) GeomData) :=
  skipn (List.length (trace w)) (trace w').

(** The distance a run reports. *)
Definition returned (out : option ((T * DistanceResult) * World (T:=T) GeomData SolverInst))
    : option T :=
  option_map (fun x => fst (fst x)) out.

End DriverVocabulary.

(** A small world for the worked runs, on doubles: geometries without
    payload, solver instances that are a number, a result object that is
    the reported distance, and a table with the single cell (1, 9). *)
Definition example_routine
    : DistanceFunc (T:=PrimFloat.float) unit nat unit PrimFloat.float :=
  fun _ _ _ _ _ _ _ => (float_of_Z 7, float_of_Z 7).

Definition example_matrix (ns : NarrowPhaseSolver)
    : DistanceFunctionMatrix (T:=PrimFloat.float) unit nat unit PrimFloat.float :=
  fun row col => if Nat.eqb row 1 && Nat.eqb col 9 then Some example_routine else None.

Definition example_default_solver (ns : NarrowPhaseSolver) : nat :=
  match ns with
  | GJKSolver_libccd => 0%nat
  | GJKSolver_indep => 1%nat
  end.

Definition example_mesh : CollisionGeometry unit := mkCollisionGeometry OT_BVH 1 tt.
Definition example_box : CollisionGeometry unit := mkCollisionGeometry OT_GEOM 9 tt.
Definition example_ball : CollisionGeometry unit := mkCollisionGeometry OT_GEOM 10 tt.

Definition example_world : World (T:=PrimFloat.float) unit nat :=
  mkWorld [] (fun _ => false) [].

Definition example_request (g : GJKSolverType) : DistanceRequest unit :=
  mkDistanceRequest g tt.

(* ===================================================================== *)
(** ** Vocabulary of the further properties *)
(* ===================================================================== *)

Section MoreVocabulary.

Context {T : Type} {ST : Scalar T}.

Definition vneg (v : Vector3 T) : Vector3 T :=
  mkVector3 (sopp v.[0]) (sopp v.[1]) (sopp v.[2]).

Definition transpose (m : Matrix3 T) : Matrix3 T :=
  mkMatrix3 (col m 0) (col m 1) (col m 2).

(** The inverse of a rigid transform, [x -> R^T * (x - T)]. *)
Definition inverse_rigid (tf : Transform3 T) : Transform3 T :=
  mkTransform3 (transpose (linear tf))
               (vneg (mat_vec (transpose (linear tf)) (translation tf))).

(** The point reached from [p] by going back along the normal by the
    signed distance. *)
Definition foot_point (h : Halfspace T) (p : Vector3 T) : Vector3 T :=
  vsub p (vscale (n h) (signedDistance h p)).

End MoreVocabulary.

(** A half-space with a normal that is not along an axis, and a point. *)
Definition halfspace_345 : Halfspace R :=
  mkHalfspace (mkVector3 (3 / 5) 0 (4 / 5))%R 2%R.

Definition point_123 : Vector3 R := (mkVector3 1 2 3)%R.

(** Kinds of step, and the solver class a request selects. *)
Definition is_table_event {T : Type} {GeomData : Type} (e : Event (T:=T) GeomData) : bool :=
  match e with
  | EvTableInit _ => true
  | _ => false
  end.

Definition is_cerr_event {T : Type} {GeomData : Type} (e : Event (T:=T) GeomData) : bool :=
  match e with
  | EvCerr _ => true
  | _ => false
  end.

Definition selected_solver (g : GJKSolverType) : option NarrowPhaseSolver :=
  if Z.eqb g GST_LIBCCD then Some GJKSolver_libccd
  else if Z.eqb g GST_INDEP then Some GJKSolver_indep
  else None.

(** Reading a decimal numeral back as a number. *)
Definition decimal_value (s : string) : option nat :=
  option_map Nat.of_uint (NilZero.uint_of_string s).

(** Powers of two in a scalar type; [2^-600] and [2^600] are doubles whose
    squares are not: the first underflows to zero, the second overflows to
    infinity. *)
Fixpoint spow2 {T : Type} {ST : Scalar T} (k : nat) : T :=
  match k with
  | O => sofZ 1
  | S k' => smul (sofZ 2) (spow2 k')
  end.

Definition tiny {T : Type} {ST : Scalar T} : T := sdiv (sofZ 1) (spow2 600).

Definition huge {T : Type} {ST : Scalar T} : T := spow2 600.

(** The half-space built from [(1, 1, 0, -1)] and the point [(-1, 0, 0)]
    of its boundary plane. *)
Definition halfspace_xy_minus_1 {T : Type} {ST : Scalar T} : Halfspace T :=
  Halfspace_abcd (sofZ 1) (sofZ 1) (sofZ 0) (sofZ (-1)).

Definition point_minus_x {T : Type} {ST : Scalar T} : Vector3 T :=
  mkVector3 (sofZ (-1)) (sofZ 0) (sofZ 0).

(* ===================================================================== *)
(** * Properties *)
(* ===================================================================== *)

Unset Implicit Arguments.

(** ** Exact arithmetic: comparisons and simplification *)

Local Open Scope R_scope.

Lemma Reqb_spec (x y : R) : reflect (x = y) (Reqb x y).
Proof. unfold Reqb. destruct (Req_dec_T x y); constructor; assumption. Qed.

Lemma Rltb_spec (x y : R) : reflect (x < y) (Rltb x y).
Proof. unfold Rltb. destruct (Rlt_dec x y); constructor; assumption. Qed.

Lemma Rmax_value_pos : 0 < Rmax_value.
Proof. unfold Rmax_value. apply IZR_lt. reflexivity. Qed.

(** [rsc] turns the interface operations at [R] into the operations of
    [R]; [unvec] also opens vectors and matrices; [cases_R] decides the
    comparisons met in the goal, one at a time. *)
Ltac rsc :=
  cbn [sofZ sadd ssub smul sdiv sopp sabs ssqrt seqb sltb smax Scalar_R] in *.

Ltac unvec :=
  cbv [dot norm vscale vsub vadd mat_vec mat_mul col vget vset Constant Zero3
       Identity3 Identity compose apply_tf
       vx vy vz row0 row1 row2 linear translation n d] in *; rsc.

Ltac cases_R :=
  repeat (match goal with
          | |- context [Reqb ?x ?y] => destruct (Reqb_spec x y)
          | |- context [Rltb ?x ?y] => destruct (Rltb_spec x y)
          end; cbn [andb negb]).

Lemma sleb_R (x y : R) : sleb x y = true <-> x <= y.
Proof.
  unfold sleb. rsc. destruct (Rltb_spec y x); simpl; split; intros; try lra; discriminate.
Qed.

Lemma sleb_R_false (x y : R) : sleb x y = false <-> y < x.
Proof.
  unfold sleb. rsc. destruct (Rltb_spec y x); simpl; split; intros; try lra; discriminate.
Qed.

Lemma halfspace_contains_R (h : Halfspace R) (p : Vector3 R) :
  halfspace_contains h p = true <-> dot (n h) p <= d h.
Proof. unfold halfspace_contains. apply sleb_R. Qed.

Lemma sq1_cases (a : R) : a * a = 1 -> a = 1 \/ a = -1.
Proof.
  intros H. assert (E : (a - 1) * (a + 1) = 0) by lra.
  apply Rmult_integral in E. destruct E; [left | right]; lra.
Qed.

(** ** The half-space: normalisation, transform, point queries *)

Lemma dot_self_nonneg (v : Vector3 R) : 0 <= dot v v.
Proof. destruct v as [a b c]. unvec. nra. Qed.

Lemma unitNormalTest_unit (h : Halfspace R) :
  unit_normal h -> unitNormalTest h = h.
Proof.
  unfold unit_normal, unitNormalTest. intros H.
  unfold norm. rewrite H. rsc. rewrite sqrt_1.
  destruct (Rltb_spec 0 1); [| lra].
  destruct h as [[a b c] e]. unvec. f_equal; [f_equal|]; field.
Qed.

Lemma unitNormalTest_is_unit (h : Halfspace R) : unit_normal (unitNormalTest h).
Proof.
  unfold unit_normal, unitNormalTest, norm. rsc.
  destruct (Rltb_spec 0 (sqrt (dot (n h) (n h)))) as [Hl | Hl].
  - pose proof (sqrt_sqrt _ (dot_self_nonneg (n h))) as Hs.
    set (l := sqrt (dot (n h) (n h))) in *.
    destruct h as [[a b c] e]. unvec.
    replace (a * (1 / l) * (a * (1 / l)) + b * (1 / l) * (b * (1 / l)) + c * (1 / l) * (c * (1 / l)))
      with ((a * a + b * b + c * c) / (l * l)) by (field; lra).
    rewrite Hs. field. nra.
  - unvec. ring.
Qed.

Lemma norm_abc (a b c : R) : norm (mkVector3 a b c) = sqrt (a * a + b * b + c * c).
Proof. reflexivity. Qed.

Lemma Halfspace_nd_normalized (a b c d_ : R) :
  sqrt (a * a + b * b + c * c) <> 0 ->
  Halfspace_nd (mkVector3 a b c) d_ =
  mkHalfspace (mkVector3 (a / sqrt (a * a + b * b + c * c))
                         (b / sqrt (a * a + b * b + c * c))
                         (c / sqrt (a * a + b * b + c * c)))
              (d_ / sqrt (a * a + b * b + c * c)).
Proof.
  intros Hne. pose proof (sqrt_pos (a * a + b * b + c * c)) as HL.
  unfold Halfspace_nd, unitNormalTest. cbn [n d]. rewrite norm_abc. rsc.
  destruct (Rltb_spec 0 (sqrt (a * a + b * b + c * c))); [| lra].
  unvec. f_equal; [f_equal|]; field; assumption.
Qed.

Lemma Halfspace_nd_degenerate (a b c d_ : R) :
  sqrt (a * a + b * b + c * c) = 0 ->
  Halfspace_nd (mkVector3 a b c) d_ = mkHalfspace (mkVector3 1 0 0) 0.
Proof.
  intros H0. unfold Halfspace_nd, unitNormalTest. cbn [n d]. rewrite norm_abc, H0. rsc.
  destruct (Rltb_spec 0 0); [lra | reflexivity].
Qed.

(** C6, as amended.  For every scalar type, with [l] the computed length
    [sqrt(a*a + b*b + c*c)]: the two normalising constructors agree; when
    [l > 0] holds in the scalar's comparison they store
    [n = (a,b,c) * (1/l)] and offset [d * (1/l)], and otherwise they store
    [n = (1,0,0)], [d = 0].  In exact real arithmetic the computed length
    is the length [L] of [(a,b,c)]: an input of nonzero length is stored as
    [n = (a,b,c)/L], which has length 1, and offset [d/L]; an input of
    length zero is stored as [n = (1,0,0)], [d = 0], which is also what the
    default constructor builds.  The constructors are total functions into
    the half-space record: there is no error outcome. *)
Theorem constructor_normalization :
  (forall (T : Type) (ST : Scalar T) (a b c d_ : T),
      let l := ssqrt (sadd (sadd (smul a a) (smul b b)) (smul c c)) in
      let inv_l := sdiv (sofZ 1) l in
      Halfspace_nd (mkVector3 a b c) d_ = Halfspace_abcd a b c d_ /\
      (sltb (sofZ 0) l = true ->
         Halfspace_abcd a b c d_ =
         mkHalfspace (mkVector3 (smul a inv_l) (smul b inv_l) (smul c inv_l)) (smul d_ inv_l)) /\
      (sltb (sofZ 0) l = false ->
         Halfspace_abcd a b c d_ = mkHalfspace (mkVector3 (sofZ 1) (sofZ 0) (sofZ 0)) (sofZ 0))) /\
  (forall a b c d_ : R,
      let L := sqrt (a * a + b * b + c * c) in
      (L <> 0 ->
         Halfspace_abcd a b c d_ = mkHalfspace (mkVector3 (a / L) (b / L) (c / L)) (d_ / L) /\
         Halfspace_nd (mkVector3 a b c) d_ = mkHalfspace (mkVector3 (a / L) (b / L) (c / L)) (d_ / L) /\
         norm (mkVector3 (a / L) (b / L) (c / L)) = 1) /\
      (L = 0 ->
         Halfspace_abcd a b c d_ = mkHalfspace (mkVector3 1 0 0) 0 /\
         Halfspace_nd (mkVector3 a b c) d_ = mkHalfspace (mkVector3 1 0 0) 0) /\
      @Halfspace_default R _ = mkHalfspace (mkVector3 1 0 0) 0).
Proof.
  split.
  - intros T ST a b c d_ l inv_l.
    split; [reflexivity|].
    unfold Halfspace_abcd, unitNormalTest. cbn [n d].
    change (norm (mkVector3 a b c)) with l.
    split; intros Hl; rewrite Hl; reflexivity.
  - intros a b c d_ L.
    assert (E : Halfspace_abcd a b c d_ = Halfspace_nd (mkVector3 a b c) d_) by reflexivity.
    split; [|split].
    + intros Hne. rewrite E.
      pose proof (Halfspace_nd_normalized a b c d_ Hne) as Hc. fold L in Hc.
      split; [exact Hc|]. split; [exact Hc|].
      pose proof (unitNormalTest_is_unit (mkHalfspace (mkVector3 a b c) d_)) as Hu.
      fold (Halfspace_nd (mkVector3 a b c) d_) in Hu. rewrite Hc in Hu.
      unfold unit_normal in Hu. cbn [n] in Hu. unfold norm. rewrite Hu. rsc. apply sqrt_1.
    + intros H0. rewrite E.
      pose proof (Halfspace_nd_degenerate a b c d_ H0) as Hc. split; exact Hc.
    + reflexivity.
Qed.

(** C6, as stated, fails on doubles.  The input [(2^-600, 0, 0, 1)] has a
    nonzero normal of length [L = 2^-600], and [d/L = 2^600] is a double;
    but the square of [2^-600] underflows to zero, so the computed length
    is zero, the constructor takes the zero-length branch and stores
    [d = 0].  The input [(2^600, 0, 0, 1)] has a finite nonzero normal; its
    square overflows, the computed length is infinite, [1/l] is zero, and
    the constructor stores [n = (0,0,0)], which is neither of unit length
    nor the default normal. *)
Lemma constructor_drops_tiny_and_huge_normals :
  (@sltb PrimFloat.float _ (sofZ 0) tiny = true /\
   @sdiv PrimFloat.float _ (sofZ 1) tiny = huge /\
   @Halfspace_abcd PrimFloat.float _ tiny (sofZ 0) (sofZ 0) (sofZ 1)
   = mkHalfspace (mkVector3 (sofZ 1) (sofZ 0) (sofZ 0)) (sofZ 0) /\
   @seqb PrimFloat.float _ (sofZ 0) huge = false) /\
  (@sltb PrimFloat.float _ (sofZ 0) huge = true /\
   @sltb PrimFloat.float _ huge smax = true /\
   @Halfspace_abcd PrimFloat.float _ huge (sofZ 0) (sofZ 0) (sofZ 1)
   = mkHalfspace (mkVector3 (sofZ 0) (sofZ 0) (sofZ 0)) (sofZ 0) /\
   @Halfspace_nd PrimFloat.float _ (mkVector3 huge (sofZ 0) (sofZ 0)) (sofZ 1)
   = mkHalfspace (mkVector3 (sofZ 0) (sofZ 0) (sofZ 0)) (sofZ 0)).
Proof. vm_compute. repeat split; reflexivity. Qed.

(** C7. Point queries.  For every scalar type, [signedDistance(p)] is the
    expression [n.p - d] and [distance(p)] is [abs] of it; over the reals
    the distance is nonnegative, the signed distance is positive outside
    ([n.p > d]), negative inside ([n.p < d]) and zero on the plane. *)
Theorem point_queries :
  (forall (T : Type) (ST : Scalar T) (h : Halfspace T) (p : Vector3 T),
      signedDistance h p = ssub (dot (n h) p) (d h) /\
      distance h p = sabs (signedDistance h p)) /\
  (forall (h : Halfspace R) (p : Vector3 R),
      signedDistance h p = dot (n h) p - d h /\
      distance h p = Rabs (signedDistance h p) /\
      0 <= distance h p /\
      (d h < dot (n h) p -> 0 < signedDistance h p /\ 0 < distance h p) /\
      (dot (n h) p < d h -> signedDistance h p < 0 /\ 0 < distance h p) /\
      (dot (n h) p = d h -> signedDistance h p = 0 /\ distance h p = 0)).
Proof.
  split.
  - intros T ST h p. split; reflexivity.
  - intros h p. unfold signedDistance, distance. rsc.
    generalize (dot (n h) p) (d h). intros x e.
    split; [reflexivity|]. split; [reflexivity|].
    split; [apply Rabs_pos|].
    split; [|split].
    + intros H. split; [lra | apply Rabs_pos_lt; lra].
    + intros H. split; [lra | apply Rabs_pos_lt; lra].
    + intros H. replace (x - e) with 0 by lra. split; [reflexivity | apply Rabs_R0].
Qed.

Ltac orth_facts H :=
  pose proof (H 0%nat 0%nat ltac:(lia) ltac:(lia));
  pose proof (H 0%nat 1%nat ltac:(lia) ltac:(lia));
  pose proof (H 0%nat 2%nat ltac:(lia) ltac:(lia));
  pose proof (H 1%nat 1%nat ltac:(lia) ltac:(lia));
  pose proof (H 1%nat 2%nat ltac:(lia) ltac:(lia));
  pose proof (H 2%nat 2%nat ltac:(lia) ltac:(lia));
  clear H.

Lemma dot_mat_vec_orthonormal (m : Matrix3 R) (u v : Vector3 R) :
  orthonormal m -> dot (mat_vec m u) (mat_vec m v) = dot u v.
Proof.
  intros H. orth_facts H.
  destruct m as [[a00 a01 a02] [a10 a11 a12] [a20 a21 a22]].
  destruct u as [u0 u1 u2], v as [v0 v1 v2].
  cbn [Nat.eqb] in *. unvec.
  replace ((a00 * u0 + a01 * u1 + a02 * u2) * (a00 * v0 + a01 * v1 + a02 * v2) +
           (a10 * u0 + a11 * u1 + a12 * u2) * (a10 * v0 + a11 * v1 + a12 * v2) +
           (a20 * u0 + a21 * u1 + a22 * u2) * (a20 * v0 + a21 * v1 + a22 * v2))
    with (u0 * v0 * (a00 * a00 + a10 * a10 + a20 * a20)
          + (u0 * v1 + u1 * v0) * (a00 * a01 + a10 * a11 + a20 * a21)
          + (u0 * v2 + u2 * v0) * (a00 * a02 + a10 * a12 + a20 * a22)
          + u1 * v1 * (a01 * a01 + a11 * a11 + a21 * a21)
          + (u1 * v2 + u2 * v1) * (a01 * a02 + a11 * a12 + a21 * a22)
          + u2 * v2 * (a02 * a02 + a12 * a12 + a22 * a22)) by ring.
  rewrite H0, H1, H2, H3, H4, H5. ring.
Qed.

Lemma mat_vec_mat_mul (a b : Matrix3 R) (v : Vector3 R) :
  mat_vec (mat_mul a b) v = mat_vec a (mat_vec b v).
Proof.
  destruct a as [[a00 a01 a02] [a10 a11 a12] [a20 a21 a22]].
  destruct b as [[b00 b01 b02] [b10 b11 b12] [b20 b21 b22]].
  destruct v as [v0 v1 v2]. unvec. f_equal; ring.
Qed.

(** On a unit normal and an orthonormal rotation the renormalisation in
    the constructor is the identity, so [transform] is the textbook rule. *)
Lemma transform_rigid_unit (h : Halfspace R) (tf : Transform3 R) :
  unit_normal h -> rigid tf ->
  transform h tf =
  mkHalfspace (mat_vec (linear tf) (n h))
              (d h + dot (mat_vec (linear tf) (n h)) (translation tf)).
Proof.
  intros Hu Hr. unfold transform, Halfspace_nd. rsc.
  apply unitNormalTest_unit. unfold unit_normal. cbn [n].
  rewrite dot_mat_vec_orthonormal by exact Hr. exact Hu.
Qed.

Lemma transform_is_unit (s : Halfspace R) (tf : Transform3 R) :
  unit_normal (transform s tf).
Proof. unfold transform, Halfspace_nd. apply unitNormalTest_is_unit. Qed.

Ltac rigid_by_cases :=
  let i := fresh "i" in let j := fresh "j" in
  intros i j ? ?;
  destruct i as [|[|[|i]]]; try lia; destruct j as [|[|[|j]]]; try lia;
  cbn [Nat.eqb]; unvec; ring.

Lemma Identity_rigid : rigid Identity.
Proof. rigid_by_cases. Qed.

Lemma quarter_turn_z_rigid : rigid quarter_turn_z.
Proof. unfold quarter_turn_z. rigid_by_cases. Qed.

Lemma quarter_turn_x_rigid : rigid quarter_turn_x.
Proof. unfold quarter_turn_x. rigid_by_cases. Qed.

Lemma transform_Identity_R (h : Halfspace R) : unit_normal h -> transform h Identity = h.
Proof.
  intros Hu. rewrite transform_rigid_unit; [| exact Hu | exact Identity_rigid].
  destruct h as [[a b c] e]. unvec. f_equal; [f_equal|]; ring.
Qed.

Lemma transform_Identity_abcd (a b c e : R) :
  transform (Halfspace_abcd a b c e) Identity = Halfspace_abcd a b c e.
Proof. apply transform_Identity_R. unfold Halfspace_abcd. apply unitNormalTest_is_unit. Qed.

Lemma dot_vadd_r (u a b : Vector3 R) : dot u (vadd a b) = dot u a + dot u b.
Proof. destruct u, a, b. unvec. ring. Qed.

(** The transformed half-space is the image of the half-space: a point
    and its image have the same signed distance, so the image of a point
    is inside exactly when the point is. *)
Lemma transform_signed_distance (h : Halfspace R) (tf : Transform3 R) (x : Vector3 R) :
  unit_normal h -> rigid tf ->
  signedDistance (transform h tf) (apply_tf tf x) = signedDistance h x.
Proof.
  intros Hu Hr. rewrite (transform_rigid_unit h tf Hu Hr).
  unfold signedDistance, apply_tf. cbn [n d]. rsc.
  rewrite dot_vadd_r, (dot_mat_vec_orthonormal _ _ _ Hr). lra.
Qed.

Lemma transform_maps_halfspace (h : Halfspace R) (tf : Transform3 R) (x : Vector3 R) :
  unit_normal h -> rigid tf ->
  halfspace_contains (transform h tf) (apply_tf tf x) = halfspace_contains h x.
Proof.
  intros Hu Hr. pose proof (transform_signed_distance h tf x Hu Hr) as E.
  unfold signedDistance in E. rsc.
  unfold halfspace_contains, sleb. rsc.
  destruct (Rltb_spec (d (transform h tf)) (dot (n (transform h tf)) (apply_tf tf x)));
    destruct (Rltb_spec (d h) (dot (n h) x)); try reflexivity; lra.
Qed.

(** Every half-space the code builds has a unit normal. *)
Lemma constructed_halfspaces_are_unit :
  (forall a b c e : R, unit_normal (Halfspace_abcd a b c e)) /\
  (forall (v : Vector3 R) (e : R), unit_normal (Halfspace_nd v e)) /\
  unit_normal Halfspace_default /\
  (forall (h : Halfspace R) (tf : Transform3 R), unit_normal (transform h tf)).
Proof.
  split; [intros; apply unitNormalTest_is_unit|].
  split; [intros; apply unitNormalTest_is_unit|].
  split; [unfold unit_normal, Halfspace_default; unvec; ring|].
  apply transform_is_unit.
Qed.

(** C8. Transform algebra, over the reals.  For a half-space with unit
    normal (the invariant of the type: every constructor establishes it)
    and rigid transforms [T1], [T2] (orthonormal rotation plus
    translation): the identity transform returns the half-space unchanged;
    transforming by [T1] and then by [T2] equals transforming by the
    composition [T2 * T1]; and the transformed half-space is
    [n' = R * n], [d' = d + n' . T]. *)
Theorem transform_algebra (h : Halfspace R) (T1 T2 : Transform3 R) :
  unit_normal h -> rigid T1 -> rigid T2 ->
  transform h Identity = h /\
  transform (transform h T1) T2 = transform h (compose T2 T1) /\
  n (transform h T1) = mat_vec (linear T1) (n h) /\
  d (transform h T1) = d h + dot (n (transform h T1)) (translation T1).
Proof.
  intros Hu H1 H2.
  pose proof (transform_is_unit h T1) as Hu1.
  split; [|split; [|split]].
  - apply transform_Identity_R. exact Hu.
  - rewrite (transform_rigid_unit (transform h T1) T2 Hu1 H2).
    rewrite (transform_rigid_unit h T1 Hu H1). cbn [n d].
    unfold transform, Halfspace_nd. cbn [compose linear translation]. rsc.
    rewrite mat_vec_mat_mul.
    set (m := mat_vec (linear T2) (mat_vec (linear T1) (n h))).
    assert (Hm : unit_normal (mkHalfspace m
                   (d h + dot m (vadd (mat_vec (linear T2) (translation T1)) (translation T2))))).
    { unfold unit_normal, m. cbn [n]. rewrite !dot_mat_vec_orthonormal by assumption. exact Hu. }
    rewrite (unitNormalTest_unit _ Hm). f_equal.
    assert (Hd : dot m (mat_vec (linear T2) (translation T1)) =
                 dot (mat_vec (linear T1) (n h)) (translation T1)).
    { unfold m. apply dot_mat_vec_orthonormal. exact H2. }
    revert Hd. generalize (mat_vec (linear T2) (translation T1)).
    generalize (mat_vec (linear T1) (n h)). generalize (translation T1) (translation T2).
    generalize m. clear. intros [m0 m1 m2] [t0 t1 t2] [s0 s1 s2] [x0 x1 x2] [y0 y1 y2].
    unvec. intros Hd. lra.
  - rewrite (transform_rigid_unit h T1 Hu H1). reflexivity.
  - rewrite (transform_rigid_unit h T1 Hu H1). reflexivity.
Qed.

Lemma transform_algebra_witness :
  unit_normal (@Halfspace_default R _) /\ rigid quarter_turn_z /\ rigid quarter_turn_x /\
  transform (transform Halfspace_default quarter_turn_z) quarter_turn_x
  = transform (@Halfspace_default R _) (compose quarter_turn_x quarter_turn_z).
Proof.
  assert (Hu : unit_normal (@Halfspace_default R _)).
  { unfold unit_normal, Halfspace_default. unvec. ring. }
  split; [exact Hu|]. split; [exact quarter_turn_z_rigid|]. split; [exact quarter_turn_x_rigid|].
  exact (proj1 (proj2 (transform_algebra Halfspace_default quarter_turn_z quarter_turn_x
                         Hu quarter_turn_z_rigid quarter_turn_x_rigid))).
Defined.

(** ** Arrays and the initialisation loops *)

Lemma list_set_app_middle {A : Type} (pre : list A) (x : A) (post : list A) (a : A) :
  list_set (pre ++ x :: post) (List.length pre) a = pre ++ a :: post.
Proof.
  induction pre as [|y pre IH]; simpl; [reflexivity | now rewrite IH].
Qed.

Lemma nth_list_set {A : Type} (l : list A) (i j : nat) (a dflt : A) :
  nth j (list_set l i a) dflt =
  if Nat.eqb j i && Nat.ltb i (List.length l) then a else nth j l dflt.
Proof.
  revert i j. induction l as [|x t IH]; intros i j.
  - simpl. destruct i, j; simpl; try reflexivity. now rewrite andb_false_r.
  - destruct i as [|i], j as [|j]; simpl; try reflexivity.
    rewrite IH. reflexivity.
Qed.

(** A loop that writes [a] at the indices [length pre .. length pre + k)
    fills exactly that slice. *)
Lemma for_loop_fill {A : Type} (a : A) (k : nat) :
  forall (pre mid post : list A),
    List.length mid = k ->
    fold_left (fun acc i => list_set acc i a) (seq (List.length pre) k) (pre ++ mid ++ post)
    = pre ++ repeat a k ++ post.
Proof.
  induction k as [|k IH]; intros pre mid post Hk.
  - destruct mid; [reflexivity | discriminate].
  - destruct mid as [|x mid]; [discriminate|]. simpl in Hk. injection Hk as Hk.
    cbn [seq fold_left app repeat].
    rewrite list_set_app_middle.
    change (pre ++ a :: mid ++ post) with (pre ++ [a] ++ mid ++ post).
    rewrite app_assoc.
    replace (S (List.length pre)) with (List.length (pre ++ [a]))
      by (rewrite length_app; simpl; lia).
    rewrite (IH (pre ++ [a]) mid post Hk).
    rewrite <- app_assoc. reflexivity.
Qed.

Lemma forallb_false_at {A : Type} (f : A -> bool) (l : list A) (x : A) :
  In x l -> f x = false -> forallb f l = false.
Proof.
  intros Hin Hx. destruct (forallb f l) eqn:E; [| reflexivity].
  rewrite forallb_forall in E. rewrite (E x Hin) in Hx. discriminate.
Qed.

Section KDOPFacts.

Context {T : Type} {ST : Scalar T}.

(** Whatever the array held, the two loops leave [k] entries at [-max]
    followed by [k] entries at [+max]. *)
Lemma kdop_init_universal (D : nat) (bv : KDOP T) :
  List.length bv = (2 * D)%nat -> kdop_init D bv = universal_KDOP D.
Proof.
  intros Hlen. unfold kdop_init, universal_KDOP, for_loop, set_dist.
  unfold KDOP in *. rewrite Nat.sub_0_r.
  replace (2 * D - D)%nat with D by lia.
  rewrite <- (firstn_skipn D bv) at 1.
  pose proof (for_loop_fill (sopp smax) D [] (firstn D bv) (skipn D bv)) as H1.
  cbn [List.length app] in H1. rewrite H1 by (rewrite length_firstn; lia).
  pose proof (for_loop_fill smax D (repeat (sopp smax) D) (skipn D bv) []) as H2.
  rewrite repeat_length in H2. rewrite !app_nil_r in H2.
  apply H2. rewrite length_skipn. lia.
Qed.

Lemma universal_KDOP_length (D : nat) : List.length (@universal_KDOP T _ D) = (2 * D)%nat.
Proof. unfold universal_KDOP. rewrite length_app, !repeat_length. lia. Qed.

Lemma blank_KDOP_length (N : nat) : List.length (@blank_KDOP T _ N) = N.
Proof. apply repeat_length. Qed.

(** Tightening one entry keeps a point inside as long as the point meets
    the tightened entry. *)
Lemma KDOP_inside_set_upper (D i : nat) (v : T) (bv : KDOP T) (p : Vector3 T) :
  List.length bv = (2 * D)%nat -> (i < D)%nat ->
  KDOP_inside D bv p = true ->
  sleb (kdop_direction_value i p) v = true ->
  KDOP_inside D (set_dist (D + i) v bv) p = true.
Proof.
  intros Hlen Hi Hin Hv. unfold KDOP_inside in *.
  rewrite forallb_forall in *. intros j Hj.
  specialize (Hin j Hj). apply in_seq in Hj.
  apply andb_true_iff in Hin. destruct Hin as [Hlo Hhi].
  unfold dist, set_dist in *. rewrite !nth_list_set.
  replace (Nat.eqb j (D + i)) with false by (symmetry; apply Nat.eqb_neq; lia).
  cbn [andb]. rewrite Hlo. cbn [andb].
  destruct (Nat.eqb_spec (D + j) (D + i)) as [E | E]; cbn [andb].
  - assert (j = i) by lia. subst j.
    replace (Nat.ltb (D + i) (List.length bv)) with true
      by (symmetry; apply Nat.ltb_lt; lia).
    exact Hv.
  - exact Hhi.
Qed.

Lemma KDOP_inside_set_lower (D i : nat) (v : T) (bv : KDOP T) (p : Vector3 T) :
  List.length bv = (2 * D)%nat -> (i < D)%nat ->
  KDOP_inside D bv p = true ->
  sleb v (kdop_direction_value i p) = true ->
  KDOP_inside D (set_dist i v bv) p = true.
Proof.
  intros Hlen Hi Hin Hv. unfold KDOP_inside in *.
  rewrite forallb_forall in *. intros j Hj.
  specialize (Hin j Hj). apply in_seq in Hj.
  apply andb_true_iff in Hin. destruct Hin as [Hlo Hhi].
  unfold dist, set_dist in *. rewrite !nth_list_set.
  replace (Nat.eqb (D + j) i) with false by (symmetry; apply Nat.eqb_neq; lia).
  cbn [andb]. rewrite Hhi, andb_true_r.
  destruct (Nat.eqb_spec j i) as [E | E]; cbn [andb].
  - subst j.
    replace (Nat.ltb i (List.length bv)) with true
      by (symmetry; apply Nat.ltb_lt; lia).
    exact Hv.
  - exact Hlo.
Qed.

End KDOPFacts.

(** ** Running the fits on doubles *)

Example DBL_MAX_value :
  PrimFloat.ltb DBL_MAX PrimFloat.infinity = true /\
  PrimFloat.eqb (PrimFloat.next_up DBL_MAX) PrimFloat.infinity = true /\
  (DBL_MAX_Z = (2 ^ 53 - 1) * 2 ^ 971)%Z.
Proof. vm_compute. repeat split. Qed.

Example run_constructor_double :
  @Halfspace_abcd PrimFloat.float _ (sofZ 0) (sofZ 0) (sofZ 0) (sofZ 7) = Halfspace_default /\
  @Halfspace_abcd PrimFloat.float _ (sofZ 0) (sofZ (-2)) (sofZ 0) (sofZ 7)
  = mkHalfspace (mkVector3 (sofZ 0) (sofZ (-1)) (sofZ 0)) (sdiv (sofZ 7) (sofZ 2)).
Proof. vm_compute. split; reflexivity. Qed.

(** On doubles the identity transform reproduces [x <= 5] exactly and
    moves the half-space along [(1,0,1)] by one unit in the last place. *)
Example run_transform_identity_double :
  transform (@halfspace_x_le_5 PrimFloat.float _) Identity = halfspace_x_le_5 /\
  (n (transform (@halfspace_xz PrimFloat.float _) Identity)).[0]
  = PrimFloat.next_up (n (@halfspace_xz PrimFloat.float _)).[0] /\
  d (transform (@halfspace_xz PrimFloat.float _) Identity)
  = PrimFloat.next_up (d (@halfspace_xz PrimFloat.float _)).
Proof. vm_compute. repeat split; reflexivity. Qed.

Example run_AABB_double :
  ComputeBVImpl_AABB (@halfspace_x_le_5 PrimFloat.float _) Identity blank_AABB
  = mkAABB (mkVector3 (PrimFloat.opp DBL_MAX) (PrimFloat.opp DBL_MAX) (PrimFloat.opp DBL_MAX))
           (mkVector3 (float_of_Z 5) DBL_MAX DBL_MAX).
Proof. vm_compute. reflexivity. Qed.

(** The half-space [(1,1,0)/sqrt 2, d = 3]: one finite entry, the upper
    entry of the direction [(1,1,0)], holding [n[0] * d * 2]. *)
Example run_KDOP16_xy_double :
  let h := transform (@halfspace_xy PrimFloat.float _) Identity in
  let bv := ComputeBVImpl_KDOP16 halfspace_xy Identity (blank_KDOP 16) in
  bv = set_dist 11 (smul (smul (n h).[0] (d h)) (sofZ 2)) (universal_KDOP 8) /\
  count_finite bv = 1%nat.
Proof. vm_compute. split; reflexivity. Qed.

Example run_KDOP16_xz_double :
  let h := transform (@halfspace_xz PrimFloat.float _) Identity in
  let bv := ComputeBVImpl_KDOP16 halfspace_xz Identity (blank_KDOP 16) in
  sltb (sofZ 0) (n h).[0] = true /\
  bv = set_dist 4 (smul (smul (n h).[0] (d h)) (sofZ 2)) (universal_KDOP 8) /\
  halfspace_contains h origin = true /\
  KDOP_inside 8 bv origin = false.
Proof. vm_compute. repeat split; reflexivity. Qed.

Example run_KDOP16_far_corner_double :
  let h := transform (@halfspace_x_ge_0 PrimFloat.float _) Identity in
  let bv := ComputeBVImpl_KDOP16 halfspace_x_ge_0 Identity (blank_KDOP 16) in
  halfspace_contains h far_corner = true /\
  KDOP_inside 8 bv far_corner = false.
Proof. vm_compute. repeat split; reflexivity. Qed.

(** Rounding on doubles.  The half-space built from [(1, 1, 0, -1)] has
    the point [(-1, 0, 0)] on its boundary plane; normalisation rounds the
    normal and the offset, the value [n[0] * d * 2] written for the
    direction [(1,1,0)] comes out one unit in the last place below [-1],
    and the three polytope fits exclude the point, which the transformed
    half-space and the universal polytope contain. *)
Example run_KDOP_fit_rounding_double :
  let h := transform (@halfspace_xy_minus_1 PrimFloat.float _) Identity in
  halfspace_contains h point_minus_x = true /\
  KDOP_inside 8 (universal_KDOP 8) (@point_minus_x PrimFloat.float _) = true /\
  KDOP_inside 9 (universal_KDOP 9) (@point_minus_x PrimFloat.float _) = true /\
  KDOP_inside 12 (universal_KDOP 12) (@point_minus_x PrimFloat.float _) = true /\
  dist (ComputeBVImpl_KDOP16 halfspace_xy_minus_1 Identity (blank_KDOP 16)) 11
  = PrimFloat.next_down (float_of_Z (-1)) /\
  KDOP_inside 8 (ComputeBVImpl_KDOP16 halfspace_xy_minus_1 Identity (blank_KDOP 16))
              point_minus_x = false /\
  KDOP_inside 9 (ComputeBVImpl_KDOP18 halfspace_xy_minus_1 Identity (blank_KDOP 18))
              point_minus_x = false /\
  KDOP_inside 12 (ComputeBVImpl_KDOP24 halfspace_xy_minus_1 Identity (blank_KDOP 24))
              point_minus_x = false.
Proof. vm_compute. repeat split; reflexivity. Qed.

(** The half-space [x - y - z <= 0] contains [(0, 1, 0)]; the 24-entry
    fit writes the upper entry of the direction [x + y - z] and so
    excludes that point. *)
Example run_KDOP24_antidiagonal_double :
  let h := transform (@halfspace_antidiagonal PrimFloat.float _) Identity in
  let bv := ComputeBVImpl_KDOP24 halfspace_antidiagonal Identity (blank_KDOP 24) in
  bv = set_dist 21 (smul (smul (n h).[0] (d h)) (sofZ 3)) (universal_KDOP 12) /\
  halfspace_contains h unit_y = true /\
  KDOP_inside 12 bv unit_y = false.
Proof. vm_compute. repeat split; reflexivity. Qed.

(** ** The axis-aligned box fit *)

Lemma halfspace_x_le_5_R :
  @halfspace_x_le_5 R _ = mkHalfspace (mkVector3 1 0 0) 5.
Proof.
  unfold halfspace_x_le_5, Halfspace_abcd. rsc.
  apply unitNormalTest_unit. unfold unit_normal. unvec. ring.
Qed.

Lemma halfspace_x_ge_0_R : @halfspace_x_ge_0 R _ = mkHalfspace (mkVector3 (-1) 0 0) 0.
Proof.
  unfold halfspace_x_ge_0, Halfspace_abcd. rsc.
  apply unitNormalTest_unit. unfold unit_normal. unvec. ring.
Qed.

Lemma AABB_fit_general (s : Halfspace R) (tf : Transform3 R) (bv : AABB R) :
  let h := transform s tf in
  let a := (n h).[0] in let b := (n h).[1] in let c := (n h).[2] in
  let U := @universal_AABB R _ in
  (b = 0 -> c = 0 -> 0 < a ->
     ComputeBVImpl_AABB s tf bv = mkAABB (min_ U) (vset (max_ U) 0 (d h))) /\
  (b = 0 -> c = 0 -> a < 0 ->
     ComputeBVImpl_AABB s tf bv = mkAABB (vset (min_ U) 0 (- d h)) (max_ U)) /\
  (a = 0 -> c = 0 -> 0 < b ->
     ComputeBVImpl_AABB s tf bv = mkAABB (min_ U) (vset (max_ U) 1 (d h))) /\
  (a = 0 -> c = 0 -> b < 0 ->
     ComputeBVImpl_AABB s tf bv = mkAABB (vset (min_ U) 1 (- d h)) (max_ U)) /\
  (a = 0 -> b = 0 -> 0 < c ->
     ComputeBVImpl_AABB s tf bv = mkAABB (min_ U) (vset (max_ U) 2 (d h))) /\
  (a = 0 -> b = 0 -> c < 0 ->
     ComputeBVImpl_AABB s tf bv = mkAABB (vset (min_ U) 2 (- d h)) (max_ U)) /\
  (count_zero (n h) <> 2%nat -> ComputeBVImpl_AABB s tf bv = U).
Proof.
  unfold ComputeBVImpl_AABB, universal_AABB, count_zero. cbv zeta.
  generalize (transform s tf). intros [[a b c] e].
  cbn [n d vget vx vy vz min_ max_ seq filter]. rsc.
  repeat split; intros; revert H; try revert H0; try revert H1;
    cases_R; cbn [List.length]; intros; try reflexivity; try lra; try lia.
Qed.

Lemma AABB_fit_aligned (s : Halfspace R) (tf : Transform3 R) (bv : AABB R) :
  let h := transform s tf in
  let U := @universal_AABB R _ in
  (count_zero (n h) = 2%nat ->
   exists i, (i < 3)%nat /\ (n h).[i] <> 0 /\
             (forall j, (j < 3)%nat -> j <> i -> (n h).[j] = 0) /\
             ((0 < (n h).[i] /\
               ComputeBVImpl_AABB s tf bv = mkAABB (min_ U) (vset (max_ U) i (d h))) \/
              ((n h).[i] < 0 /\
               ComputeBVImpl_AABB s tf bv = mkAABB (vset (min_ U) i (- d h)) (max_ U)))) /\
  (count_zero (n h) <> 2%nat -> ComputeBVImpl_AABB s tf bv = U).
Proof.
  pose proof (AABB_fit_general s tf bv) as G. cbv zeta in *.
  destruct G as (Gx1 & Gx2 & Gy1 & Gy2 & Gz1 & Gz2 & GU).
  split; [| exact GU].
  clear GU. revert Gx1 Gx2 Gy1 Gy2 Gz1 Gz2.
  generalize (ComputeBVImpl_AABB s tf bv). generalize (transform s tf).
  intros [[a b c] e] fit. unfold count_zero.
  cbn [n d vget vx vy vz seq filter]. rsc.
  intros Gx1 Gx2 Gy1 Gy2 Gz1 Gz2.
  destruct (Reqb_spec a 0) as [Ea | Ea], (Reqb_spec b 0) as [Eb | Eb], (Reqb_spec c 0) as [Ec | Ec];
    cbn [List.length]; intros Hc; try lia.
  - exists 2%nat. split; [lia|]. split; [exact Ec|]. split.
    + intros [|[|j]] Hj Hne; cbn [vget vx vy vz]; try assumption; lia.
    + cbn [vget vx vy vz]. destruct (Rtotal_order c 0) as [Hs | [Hs | Hs]]; [right | lra | left];
        (split; [lra | auto]).
  - exists 1%nat. split; [lia|]. split; [exact Eb|]. split.
    + intros [|[|j]] Hj Hne; cbn [vget vx vy vz]; try assumption; lia.
    + cbn [vget vx vy vz]. destruct (Rtotal_order b 0) as [Hs | [Hs | Hs]]; [right | lra | left];
        (split; [lra | auto]).
  - exists 0%nat. split; [lia|]. split; [exact Ea|]. split.
    + intros [|[|j]] Hj Hne; cbn [vget vx vy vz]; try assumption; lia.
    + cbn [vget vx vy vz]. destruct (Rtotal_order a 0) as [Hs | [Hs | Hs]]; [right | lra | left];
        (split; [lra | auto]).
Qed.

(** C2. The axis-aligned box fit.  With [h = transform(s, tf)] and [U]
    the box with all six faces at [-max] / [+max]: when exactly two
    components of the normal of [h] compare equal to [0.0], the third, at
    axis [i], is nonzero and the fit is [U] with one face moved, [max[i]] to
    [d] if that component is positive and [min[i]] to [-d] if it is
    negative; in every other case the fit is [U].  The incoming box is
    overwritten.  For [n = (1,0,0)], [d = 5] under the identity the result
    has [max.x = 5] and every other face at [-max] / [+max], over the reals
    and on doubles. *)
Theorem AABB_fit_spec :
  (forall (s : Halfspace R) (tf : Transform3 R) (bv : AABB R),
      let h := transform s tf in
      let U := @universal_AABB R _ in
      (count_zero (n h) = 2%nat ->
       exists i, (i < 3)%nat /\ (n h).[i] <> 0 /\
                 (forall j, (j < 3)%nat -> j <> i -> (n h).[j] = 0) /\
                 ((0 < (n h).[i] /\
                   ComputeBVImpl_AABB s tf bv = mkAABB (min_ U) (vset (max_ U) i (d h))) \/
                  ((n h).[i] < 0 /\
                   ComputeBVImpl_AABB s tf bv = mkAABB (vset (min_ U) i (- d h)) (max_ U)))) /\
      (count_zero (n h) <> 2%nat -> ComputeBVImpl_AABB s tf bv = U)) /\
  (forall bv : AABB R,
      ComputeBVImpl_AABB (@halfspace_x_le_5 R _) Identity bv =
      mkAABB (mkVector3 (- Rmax_value) (- Rmax_value) (- Rmax_value))
             (mkVector3 5 Rmax_value Rmax_value)) /\
  ComputeBVImpl_AABB (@halfspace_x_le_5 PrimFloat.float _) Identity blank_AABB =
  mkAABB (mkVector3 (PrimFloat.opp DBL_MAX) (PrimFloat.opp DBL_MAX) (PrimFloat.opp DBL_MAX))
         (mkVector3 (float_of_Z 5) DBL_MAX DBL_MAX).
Proof.
  split; [exact AABB_fit_aligned|].
  split; [| exact run_AABB_double].
  intros bv.
  assert (Ht : transform (@halfspace_x_le_5 R _) Identity = mkHalfspace (mkVector3 1 0 0) 5).
  { unfold halfspace_x_le_5. rewrite transform_Identity_abcd. exact halfspace_x_le_5_R. }
  pose proof (proj1 (AABB_fit_general halfspace_x_le_5 Identity bv)) as H.
  cbv zeta in H. rewrite Ht in H. cbn [n d vget vx vy vz] in H.
  rewrite H by lra. reflexivity.
Qed.

(** ** Soundness of the fits inside the finite range *)

Ltac to_prop :=
  rewrite ?andb_true_iff, ?sleb_R in *.

(** With two components zero, the remaining component of a unit normal is
    [1] or [-1]. *)
Ltac unit_axis :=
  match goal with
  | Hu : ?a * ?a + ?b * ?b + ?c * ?c = 1 |- _ =>
      first
        [ let Ha := fresh in assert (Ha : a * a = 1) by nra;
          destruct (sq1_cases a Ha); subst; lra
        | let Ha := fresh in assert (Ha : b * b = 1) by nra;
          destruct (sq1_cases b Ha); subst; lra
        | let Ha := fresh in assert (Ha : c * c = 1) by nra;
          destruct (sq1_cases c Ha); subst; lra ]
  end.

Lemma AABB_fit_sound (s : Halfspace R) (tf : Transform3 R) (bv : AABB R) (p : Vector3 R) :
  halfspace_contains (transform s tf) p = true ->
  AABB_contain universal_AABB p = true ->
  AABB_contain (ComputeBVImpl_AABB s tf bv) p = true.
Proof.
  intros Hh Hin. pose proof (transform_is_unit s tf) as Hu.
  apply halfspace_contains_R in Hh.
  unfold ComputeBVImpl_AABB. cbv zeta. fold (@universal_AABB R _).
  revert Hh Hu. generalize (transform s tf). intros [[a b c] e].
  destruct p as [x y z]. unfold unit_normal. intros Hh Hu.
  unfold AABB_contain, universal_AABB in Hin.
  cbn [forallb seq min_ max_ Constant vget vx vy vz] in Hin.
  to_prop. unvec.
  cases_R; unfold AABB_contain, universal_AABB;
    cbn [forallb seq min_ max_ Constant vget vset vx vy vz]; to_prop; rsc;
    repeat split; first [tauto | lra | unit_axis].
Qed.

(** A unit normal [a * u] with [k * a^2 = 1]: the plane [a * v <= e] is
    the plane [v <= a * e * k] when [a > 0] and [v >= a * e * k] when
    [a < 0]. *)
Lemma scaled_bound (k a v e : R) :
  k * (a * a) = 1 -> a * v <= e ->
  (0 < a -> v <= a * e * k) /\ (a < 0 -> a * e * k <= v).
Proof.
  intros Hk Hh.
  assert (E : v = k * a * (a * v)).
  { replace (k * a * (a * v)) with (k * (a * a) * v) by ring. rewrite Hk. ring. }
  assert (Hk0 : 0 < k) by nra.
  split; intros Ha.
  - rewrite E. replace (a * e * k) with (k * a * e) by ring.
    apply Rmult_le_compat_l; [nra | exact Hh].
  - rewrite E at 1. replace (a * e * k) with (k * a * e) by ring.
    apply Rmult_le_compat_neg_l; [nra | exact Hh].
Qed.

Ltac kdop_entry Hin :=
  lazymatch goal with
  | |- KDOP_inside ?D (set_dist ?k ?v ?bv) ?p = true =>
      let k' := eval compute in k in
      let lt := eval compute in (Nat.ltb k' D) in
      lazymatch lt with
      | true => apply (@KDOP_inside_set_lower R _ D k')
      | false =>
          let i := eval compute in (k' - D)%nat in
          apply (@KDOP_inside_set_upper R _ D i)
      end;
      [ apply universal_KDOP_length | lia | exact Hin
      | apply sleb_R;
        cbn [kdop_direction_value kdop_direction_values nth vget vx vy vz]; rsc ]
  | |- KDOP_inside _ _ _ = true => exact Hin
  end.

Ltac by_sign a :=
  destruct (Rtotal_order a 0) as [? | [? | ?]].

Ltac elim_sums :=
  repeat match goal with
         | H : ?u + ?v = 0 |- _ =>
             let E := fresh in assert (E : v = - u) by lra; clear H; subst v
         end.

Ltac refute_excluded :=
  exfalso;
  match goal with
  | H : ~ _ |- _ =>
      apply H; unfold positive_xz_diagonal, xyz_antidiagonal;
      cbn [vget vx vy vz]; repeat split; lra
  end.

Ltac kdop_scaled :=
  lazymatch goal with
  | |- ?v <= ?a * ?e * ?k =>
      by_sign a;
      first [ lra | refute_excluded
            | apply (proj1 (scaled_bound k a v e ltac:(lra) ltac:(lra))); lra ]
  | |- ?a * ?e * ?k <= ?v =>
      by_sign a;
      first [ lra | refute_excluded
            | apply (proj2 (scaled_bound k a v e ltac:(lra) ltac:(lra))); lra ]
  end.

Ltac kdop_arith :=
  first [ lra | congruence | unit_axis | subst; elim_sums; kdop_scaled ].

Lemma KDOP16_fit_sound (s : Halfspace R) (tf : Transform3 R) (bv : KDOP R) (p : Vector3 R) :
  List.length bv = 16%nat ->
  halfspace_contains (transform s tf) p = true ->
  KDOP_inside 8 (universal_KDOP 8) p = true ->
  ~ positive_xz_diagonal (n (transform s tf)) ->
  KDOP_inside 8 (ComputeBVImpl_KDOP16 s tf bv) p = true.
Proof.
  intros Hlen Hh Hin Hx. pose proof (transform_is_unit s tf) as Hu.
  apply halfspace_contains_R in Hh.
  unfold ComputeBVImpl_KDOP16. cbv zeta.
  rewrite (kdop_init_universal 8 bv Hlen).
  revert Hh Hu Hx. generalize (transform s tf). intros [[a b c] e].
  destruct p as [x y z]. unfold unit_normal. intros Hh Hu Hx.
  unvec.
  cases_R; kdop_entry Hin; kdop_arith.
Qed.

Lemma KDOP18_fit_sound (s : Halfspace R) (tf : Transform3 R) (bv : KDOP R) (p : Vector3 R) :
  List.length bv = 18%nat ->
  halfspace_contains (transform s tf) p = true ->
  KDOP_inside 9 (universal_KDOP 9) p = true ->
  ~ positive_xz_diagonal (n (transform s tf)) ->
  KDOP_inside 9 (ComputeBVImpl_KDOP18 s tf bv) p = true.
Proof.
  intros Hlen Hh Hin Hx. pose proof (transform_is_unit s tf) as Hu.
  apply halfspace_contains_R in Hh.
  unfold ComputeBVImpl_KDOP18. cbv zeta.
  rewrite (kdop_init_universal 9 bv Hlen).
  revert Hh Hu Hx. generalize (transform s tf). intros [[a b c] e].
  destruct p as [x y z]. unfold unit_normal. intros Hh Hu Hx.
  unvec.
  cases_R; kdop_entry Hin; kdop_arith.
Qed.

Lemma KDOP24_fit_sound (s : Halfspace R) (tf : Transform3 R) (bv : KDOP R) (p : Vector3 R) :
  List.length bv = 24%nat ->
  halfspace_contains (transform s tf) p = true ->
  KDOP_inside 12 (universal_KDOP 12) p = true ->
  ~ positive_xz_diagonal (n (transform s tf)) ->
  ~ xyz_antidiagonal (n (transform s tf)) ->
  KDOP_inside 12 (ComputeBVImpl_KDOP24 s tf bv) p = true.
Proof.
  intros Hlen Hh Hin Hx Hy. pose proof (transform_is_unit s tf) as Hu.
  apply halfspace_contains_R in Hh.
  unfold ComputeBVImpl_KDOP24. cbv zeta.
  rewrite (kdop_init_universal 12 bv Hlen).
  revert Hh Hu Hx Hy. generalize (transform s tf). intros [[a b c] e].
  destruct p as [x y z]. unfold unit_normal. intros Hh Hu Hx Hy.
  unvec.
  cases_R; kdop_entry Hin; kdop_arith.
Qed.

Lemma kIOS_fit_contain (s : Halfspace R) (tf : Transform3 R) (bv : kIOS R) (p : Vector3 R) :
  List.length (spheres bv) = 5%nat ->
  kIOS_contain (ComputeBVImpl_kIOS s tf bv) p = kIOS_contain universal_kIOS p.
Proof.
  intros Hlen. unfold ComputeBVImpl_kIOS, ComputeBVImpl_OBB, kIOS_contain, universal_kIOS.
  cbn [spheres num_spheres kios_obb].
  destruct (spheres bv) as [|s0 rest]; [discriminate | reflexivity].
Qed.

(** The box, swept-sphere and sphere fits ignore the half-space and the
    transform. *)
Lemma rough_fits_are_universal (s : Halfspace R) (tf : Transform3 R) :
  (forall bv, ComputeBVImpl_OBB s tf bv = universal_OBB) /\
  (forall bv, ComputeBVImpl_RSS s tf bv = universal_RSS) /\
  (forall bv, ComputeBVImpl_OBBRSS s tf bv = universal_OBBRSS).
Proof. repeat split. Qed.

(** What the universal box and the universal sphere contain. *)
Lemma universal_AABB_contains (p : Vector3 R) :
  AABB_contain universal_AABB p = true <->
  (- Rmax_value <= p.[0] <= Rmax_value) /\
  (- Rmax_value <= p.[1] <= Rmax_value) /\
  (- Rmax_value <= p.[2] <= Rmax_value).
Proof.
  unfold AABB_contain, universal_AABB. destruct p as [x y z].
  cbn [forallb seq min_ max_ Constant vget vx vy vz]. to_prop. rsc. tauto.
Qed.

Lemma universal_Sphere_contains (p : Vector3 R) :
  Sphere_contain universal_Sphere p = true <->
  p.[0] * p.[0] + p.[1] * p.[1] + p.[2] * p.[2] <= Rmax_value * Rmax_value.
Proof.
  unfold Sphere_contain, universal_Sphere. destruct p as [x y z].
  cbn [o sphere_r]. rewrite sleb_R. unvec. split; intros H; nra.
Qed.

(** C1, as amended.  In exact real arithmetic: for every half-space [s],
    transform [tf] and point [p] of the transformed half-space
    ([n'.p <= d'], where [(n', d')] is [transform(s, tf)]): if [p] lies in
    the universal bound of a representation (every face, extent, length,
    radius or support entry at [-max] / [+max]), then [p] lies in the bound
    the fit returns.  The oriented-box, swept-sphere and composite fits
    return exactly that universal bound whatever [s] and [tf] are; the
    sphere fit returns one sphere of radius [max] about the origin with
    the universal box.  For the polytope fits this is stated for
    transformed normals that are not a positive multiple of [(1,0,1)] and,
    with 24 entries, not a multiple of [(1,-1,-1)]. *)
Theorem fit_sound_within_universal (s : Halfspace R) (tf : Transform3 R) (p : Vector3 R) :
  halfspace_contains (transform s tf) p = true ->
  (forall bv, AABB_contain universal_AABB p = true ->
              AABB_contain (ComputeBVImpl_AABB s tf bv) p = true) /\
  (forall bv, ComputeBVImpl_OBB s tf bv = universal_OBB /\
              (OBB_contain universal_OBB p = true ->
               OBB_contain (ComputeBVImpl_OBB s tf bv) p = true)) /\
  (forall bv, ComputeBVImpl_RSS s tf bv = universal_RSS /\
              (RSS_contain universal_RSS p = true ->
               RSS_contain (ComputeBVImpl_RSS s tf bv) p = true)) /\
  (forall bv, ComputeBVImpl_OBBRSS s tf bv = universal_OBBRSS /\
              (OBBRSS_contain universal_OBBRSS p = true ->
               OBBRSS_contain (ComputeBVImpl_OBBRSS s tf bv) p = true)) /\
  (forall bv, List.length (spheres bv) = 5%nat ->
              num_spheres (ComputeBVImpl_kIOS s tf bv) = 1%nat /\
              nth_error (spheres (ComputeBVImpl_kIOS s tf bv)) 0 = Some universal_Sphere /\
              kios_obb (ComputeBVImpl_kIOS s tf bv) = universal_OBB /\
              (kIOS_contain universal_kIOS p = true ->
               kIOS_contain (ComputeBVImpl_kIOS s tf bv) p = true)) /\
  (forall bv, List.length bv = 16%nat ->
              KDOP_inside 8 (universal_KDOP 8) p = true ->
              ~ positive_xz_diagonal (n (transform s tf)) ->
              KDOP_inside 8 (ComputeBVImpl_KDOP16 s tf bv) p = true) /\
  (forall bv, List.length bv = 18%nat ->
              KDOP_inside 9 (universal_KDOP 9) p = true ->
              ~ positive_xz_diagonal (n (transform s tf)) ->
              KDOP_inside 9 (ComputeBVImpl_KDOP18 s tf bv) p = true) /\
  (forall bv, List.length bv = 24%nat ->
              KDOP_inside 12 (universal_KDOP 12) p = true ->
              ~ positive_xz_diagonal (n (transform s tf)) ->
              ~ xyz_antidiagonal (n (transform s tf)) ->
              KDOP_inside 12 (ComputeBVImpl_KDOP24 s tf bv) p = true).
Proof.
  intros Hh.
  split; [intros bv; apply AABB_fit_sound; exact Hh|].
  split; [intros bv; split; [reflexivity | intros H; exact H]|].
  split; [intros bv; split; [reflexivity | intros H; exact H]|].
  split; [intros bv; split; [reflexivity | intros H; exact H]|].
  split.
  { intros bv Hlen. split; [reflexivity|].
    split; [destruct bv as [[|s0 rest] k b]; [discriminate | reflexivity]|].
    split; [reflexivity|].
    intros H. rewrite kIOS_fit_contain by exact Hlen. exact H. }
  split; [intros bv Hlen; apply KDOP16_fit_sound; assumption|].
  split; [intros bv Hlen; apply KDOP18_fit_sound; assumption|].
  intros bv Hlen; apply KDOP24_fit_sound; assumption.
Qed.

Lemma fit_sound_within_universal_witness :
  halfspace_contains (transform (@halfspace_x_le_5 R _) Identity) origin = true /\
  AABB_contain (ComputeBVImpl_AABB (@halfspace_x_le_5 R _) Identity blank_AABB) origin = true /\
  KDOP_inside 8 (ComputeBVImpl_KDOP16 (@halfspace_x_le_5 R _) Identity (blank_KDOP 16)) origin
  = true.
Proof.
  assert (Ht : transform (@halfspace_x_le_5 R _) Identity = mkHalfspace (mkVector3 1 0 0) 5).
  { unfold halfspace_x_le_5. rewrite transform_Identity_abcd. exact halfspace_x_le_5_R. }
  assert (Hh : halfspace_contains (transform (@halfspace_x_le_5 R _) Identity) origin = true).
  { rewrite Ht. apply halfspace_contains_R. unfold origin. unvec. lra. }
  pose proof Rmax_value_pos as HM.
  pose proof (fit_sound_within_universal halfspace_x_le_5 Identity origin Hh)
    as (HA & _ & _ & _ & _ & HK & _).
  split; [exact Hh|]. split.
  - apply HA. apply universal_AABB_contains. unfold origin. unvec. lra.
  - apply HK.
    + apply blank_KDOP_length.
    + unfold KDOP_inside, universal_KDOP, origin, dist.
      cbn [forallb seq repeat app nth Nat.add kdop_direction_value kdop_direction_values
           Zero3 Constant vget vx vy vz].
      rewrite !andb_true_iff, !sleb_R. rsc. repeat split; lra.
    + rewrite Ht. unfold positive_xz_diagonal. cbn [n vget vx vy vz]. lra.
Defined.

(** Branches of the 16-entry fit over the reals. *)
Lemma KDOP16_fit_xz_branch (s : Halfspace R) (tf : Transform3 R) (bv : KDOP R) :
  List.length bv = 16%nat ->
  (n (transform s tf)).[1] = 0 ->
  (n (transform s tf)).[0] = (n (transform s tf)).[2] ->
  (n (transform s tf)).[0] <> 0 ->
  ComputeBVImpl_KDOP16 s tf bv =
  set_dist 4 ((n (transform s tf)).[0] * d (transform s tf) * 2) (universal_KDOP 8).
Proof.
  intros Hlen. unfold ComputeBVImpl_KDOP16. cbv zeta.
  rewrite (kdop_init_universal 8 bv Hlen).
  generalize (transform s tf). intros [[a b c] e]. unvec. intros Hb Hac Ha.
  cases_R; first [reflexivity | exfalso; lra | exfalso; congruence].
Qed.

Lemma KDOP16_fit_neg_x_branch (s : Halfspace R) (tf : Transform3 R) (bv : KDOP R) :
  List.length bv = 16%nat ->
  (n (transform s tf)).[1] = 0 ->
  (n (transform s tf)).[2] = 0 ->
  (n (transform s tf)).[0] < 0 ->
  ComputeBVImpl_KDOP16 s tf bv =
  set_dist 0 (- d (transform s tf)) (universal_KDOP 8).
Proof.
  intros Hlen. unfold ComputeBVImpl_KDOP16. cbv zeta.
  rewrite (kdop_init_universal 8 bv Hlen).
  generalize (transform s tf). intros [[a b c] e]. unvec. intros Hb Hc Ha.
  cases_R; first [reflexivity | exfalso; lra | exfalso; congruence].
Qed.

(** The last branch of the 24-entry fit repeats the condition of an
    earlier one, so entries 11 and 23 are never written. *)
Lemma KDOP24_fit_never_writes_entry_11 (s : Halfspace R) (tf : Transform3 R) (bv : KDOP R) :
  List.length bv = 24%nat ->
  dist (ComputeBVImpl_KDOP24 s tf bv) 11 = - Rmax_value /\
  dist (ComputeBVImpl_KDOP24 s tf bv) 23 = Rmax_value.
Proof.
  intros Hlen. unfold ComputeBVImpl_KDOP24. cbv zeta.
  rewrite (kdop_init_universal 12 bv Hlen).
  generalize (transform s tf). intros [[a b c] e]. unvec.
  cases_R; first [split; reflexivity | exfalso; lra | exfalso; congruence].
Qed.

(** Each polytope fit returns the universal polytope with at most one
    entry overwritten. *)
Lemma KDOP_fits_write_at_most_one_entry (s : Halfspace R) (tf : Transform3 R) (bv : KDOP R) :
  (List.length bv = 16%nat ->
   ComputeBVImpl_KDOP16 s tf bv = universal_KDOP 8 \/
   exists k v, (k < 16)%nat /\ ComputeBVImpl_KDOP16 s tf bv = set_dist k v (universal_KDOP 8)) /\
  (List.length bv = 18%nat ->
   ComputeBVImpl_KDOP18 s tf bv = universal_KDOP 9 \/
   exists k v, (k < 18)%nat /\ ComputeBVImpl_KDOP18 s tf bv = set_dist k v (universal_KDOP 9)) /\
  (List.length bv = 24%nat ->
   ComputeBVImpl_KDOP24 s tf bv = universal_KDOP 12 \/
   exists k v, (k < 24)%nat /\ ComputeBVImpl_KDOP24 s tf bv = set_dist k v (universal_KDOP 12)).
Proof.
  split; [|split]; intros Hlen.
  - unfold ComputeBVImpl_KDOP16. cbv zeta. rewrite (kdop_init_universal 8 bv Hlen).
    generalize (transform s tf). intros [[a b c] e]. unvec.
    cases_R; first [left; reflexivity | right; eexists; eexists; split; [| reflexivity]; cbn; lia].
  - unfold ComputeBVImpl_KDOP18. cbv zeta. rewrite (kdop_init_universal 9 bv Hlen).
    generalize (transform s tf). intros [[a b c] e]. unvec.
    cases_R; first [left; reflexivity | right; eexists; eexists; split; [| reflexivity]; cbn; lia].
  - unfold ComputeBVImpl_KDOP24. cbv zeta. rewrite (kdop_init_universal 12 bv Hlen).
    generalize (transform s tf). intros [[a b c] e]. unvec.
    cases_R; first [left; reflexivity | right; eexists; eexists; split; [| reflexivity]; cbn; lia].
Qed.

(** C1, as stated, fails.  The half-space [x >= 0] contains the corner
    [(max, max, 0)], whose coordinates are representable; the 16-entry
    polytope fitted to it under the identity does not, because its
    untightened entry for the direction [(1,1,0)] is [max] and
    [max + max] exceeds it: over the reals and on doubles. *)
Lemma KDOP16_fit_misses_far_corner :
  (halfspace_contains (transform (@halfspace_x_ge_0 R _) Identity) far_corner = true /\
   KDOP_inside 8 (ComputeBVImpl_KDOP16 (@halfspace_x_ge_0 R _) Identity (blank_KDOP 16))
               far_corner = false) /\
  (halfspace_contains (transform (@halfspace_x_ge_0 PrimFloat.float _) Identity) far_corner = true /\
   KDOP_inside 8 (ComputeBVImpl_KDOP16 (@halfspace_x_ge_0 PrimFloat.float _) Identity (blank_KDOP 16))
               far_corner = false).
Proof.
  split; [| exact run_KDOP16_far_corner_double].
  assert (Ht : transform (@halfspace_x_ge_0 R _) Identity = mkHalfspace (mkVector3 (-1) 0 0) 0).
  { unfold halfspace_x_ge_0. rewrite transform_Identity_abcd. exact halfspace_x_ge_0_R. }
  pose proof Rmax_value_pos as HM.
  split.
  - rewrite Ht. apply halfspace_contains_R. unfold far_corner. unvec. lra.
  - rewrite KDOP16_fit_neg_x_branch;
      [| apply blank_KDOP_length | rewrite Ht; reflexivity | rewrite Ht; reflexivity
       | rewrite Ht; unvec; lra ].
    apply (forallb_false_at _ _ 3%nat).
    + apply in_seq. lia.
    + apply andb_false_iff. right. apply sleb_R_false.
      unfold far_corner. cbn. lra.
Qed.

Lemma sqrt2_pos : 0 < sqrt (1 * 1 + 0 * 0 + 1 * 1).
Proof. apply sqrt_lt_R0. lra. Qed.

Lemma sqrt2_sq : sqrt (1 * 1 + 0 * 0 + 1 * 1) * sqrt (1 * 1 + 0 * 0 + 1 * 1) = 2.
Proof. rewrite sqrt_sqrt; lra. Qed.

Lemma halfspace_xz_R :
  let L := sqrt (1 * 1 + 0 * 0 + 1 * 1) in
  transform (@halfspace_xz R _) Identity = mkHalfspace (mkVector3 (1 / L) (0 / L) (1 / L)) (3 / L).
Proof.
  intros L. unfold halfspace_xz. rewrite transform_Identity_abcd. rsc.
  apply Halfspace_nd_normalized.
  pose proof sqrt2_pos. lra.
Qed.

(** C3, at the failing input.  The half-space built from [(1, 0, 1, 3)]
    has a transformed normal that is a positive multiple of [(1,0,1)].
    The 16-entry fit writes the lower entry 4 of that direction and leaves
    the upper entry 12 at [max]: the branch tests [n[1] > 0] although it is
    entered with [n[1] == 0].  The fitted polytope then excludes the
    origin, which the half-space contains.  Over the reals (where the
    written value is 3) and on doubles. *)
Theorem KDOP16_fit_xz_writes_lower_entry :
  (let h := transform (@halfspace_xz R _) Identity in
   let bv := ComputeBVImpl_KDOP16 (@halfspace_xz R _) Identity (blank_KDOP 16) in
   positive_xz_diagonal (n h) /\
   bv = set_dist 4 ((n h).[0] * d h * 2) (universal_KDOP 8) /\
   dist bv 4 = 3 /\
   dist bv 12 = Rmax_value /\
   halfspace_contains h origin = true /\
   KDOP_inside 8 bv origin = false) /\
  (let h := transform (@halfspace_xz PrimFloat.float _) Identity in
   let bv := ComputeBVImpl_KDOP16 (@halfspace_xz PrimFloat.float _) Identity (blank_KDOP 16) in
   sltb (sofZ 0) (n h).[0] = true /\
   bv = set_dist 4 (smul (smul (n h).[0] (d h)) (sofZ 2)) (universal_KDOP 8) /\
   halfspace_contains h origin = true /\
   KDOP_inside 8 bv origin = false).
Proof.
  split; [| exact run_KDOP16_xz_double].
  cbv zeta. pose proof halfspace_xz_R as Ht. cbv zeta in Ht.
  pose proof sqrt2_pos as HL. pose proof sqrt2_sq as HLL.
  set (L := sqrt (1 * 1 + 0 * 0 + 1 * 1)) in *.
  assert (HiL : 0 < / L) by (apply Rinv_0_lt_compat; exact HL).
  assert (Hpos : positive_xz_diagonal (n (transform (@halfspace_xz R _) Identity))).
  { rewrite Ht. unfold positive_xz_diagonal. cbn [n vget vx vy vz].
    repeat split; unfold Rdiv; nra. }
  assert (Hbv : ComputeBVImpl_KDOP16 (@halfspace_xz R _) Identity (blank_KDOP 16) =
                set_dist 4 ((n (transform (@halfspace_xz R _) Identity)).[0]
                            * d (transform (@halfspace_xz R _) Identity) * 2)
                         (universal_KDOP 8)).
  { destruct Hpos as (Hb & Hac & Ha).
    apply KDOP16_fit_xz_branch; [apply blank_KDOP_length | exact Hb | exact Hac | lra]. }
  assert (Hv : (n (transform (@halfspace_xz R _) Identity)).[0]
               * d (transform (@halfspace_xz R _) Identity) * 2 = 3).
  { rewrite Ht. cbn [n d vget vx]. field_simplify; [| lra]. rewrite <- Rsqr_pow2.
    unfold Rsqr. rewrite HLL. lra. }
  split; [exact Hpos|]. split; [exact Hbv|].
  rewrite Hbv, Hv.
  split; [reflexivity|]. split; [reflexivity|].
  split.
  - rewrite Ht. apply halfspace_contains_R. unfold origin. unvec.
    assert (0 < 3 / L) by (unfold Rdiv; nra). lra.
  - apply (forallb_false_at _ _ 4%nat).
    + apply in_seq. lia.
    + apply andb_false_iff. left. apply sleb_R_false. unfold origin. cbn. lra.
Qed.

(** ** The distance driver *)

Local Close Scope R_scope.

Section DriverFacts.

Context {T : Type} {ST : Scalar T}.
Variables GeomData SolverInst RequestData DistanceResult : Type.
Variable distance_matrix :
  NarrowPhaseSolver -> DistanceFunctionMatrix (T:=T) GeomData SolverInst RequestData DistanceResult.
Variable default_solver : NarrowPhaseSolver -> SolverInst.

Local Notation "'run'" := (distance_solver_geom distance_matrix default_solver).

Lemma nth_error_fresh {A : Type} (l : list A) (a : A) :
  nth_error (l ++ [a]) (List.length l) = Some a.
Proof. rewrite nth_error_app2 by lia. rewrite Nat.sub_diag. reflexivity. Qed.

Lemma list_set_fresh {A : Type} (l : list A) (a b : A) :
  list_set (l ++ [a]) (List.length l) b = l ++ [b].
Proof. apply list_set_app_middle. Qed.

(** What a call with a caller-supplied solver does, step by step. *)
Lemma run_borrowed ns o1 tf1 o2 tf2 l request result w :
  run ns o1 tf1 o2 tf2 (Some l) request result w =
  match consulted_cell distance_matrix ns o1 o2 with
  | None =>
      Some ((smax, result),
            mkWorld (heap w) (table_built_after ns w)
                    (trace w ++ table_events ns w
                       ++ [EvCerr (warning_unsupported (getNodeType o1) (getNodeType o2))]))
  | Some f =>
      match nth_error (heap w) l with
      | Some (Some s) =>
          Some (call_value f o1 tf1 o2 tf2 s request result,
                mkWorld (heap w) (table_built_after ns w)
                        (trace w ++ table_events ns w ++ [call_event ns o1 tf1 o2 tf2 l]))
      | _ => None
      end
  end.
Proof.
  unfold distance_solver_geom, consulted_cell, call_value, call_event, is_geom_bvh,
    table_events, table_built_after, getDistanceFunctionLookTable, call_entry,
    bind, ret, emit, deref.
  destruct (table_built w ns) eqn:Eb; cbn [heap table_built trace];
    destruct (OBJECT_TYPE_eqb (getObjectType o1) OT_GEOM && OBJECT_TYPE_eqb (getObjectType o2) OT_BVH);
    match goal with
    | |- context [distance_matrix ns ?a ?b] => destruct (distance_matrix ns a b) as [f|]
    end;
    cbn [heap table_built trace app]; rewrite ?app_nil_r, <- ?app_assoc; cbn [app];
    try reflexivity;
    destruct (nth_error (heap w) l) as [[s|]|]; cbn [heap table_built trace];
    rewrite <- ?app_assoc; reflexivity.
Qed.

(** What a call with a null solver pointer does, step by step. *)
Lemma run_owned ns o1 tf1 o2 tf2 request result w :
  run ns o1 tf1 o2 tf2 None request result w =
  let l := List.length (heap w) in
  match consulted_cell distance_matrix ns o1 o2 with
  | None =>
      Some ((smax, result),
            mkWorld (heap w ++ [None]) (table_built_after ns w)
                    (trace w ++ [EvNew l] ++ table_events ns w
                       ++ [EvCerr (warning_unsupported (getNodeType o1) (getNodeType o2))]
                       ++ [EvDelete l]))
  | Some f =>
      Some (call_value f o1 tf1 o2 tf2 (default_solver ns) request result,
            mkWorld (heap w ++ [None]) (table_built_after ns w)
                    (trace w ++ [EvNew l] ++ table_events ns w
                       ++ [call_event ns o1 tf1 o2 tf2 l] ++ [EvDelete l]))
  end.
Proof.
  unfold distance_solver_geom, consulted_cell, call_value, call_event, is_geom_bvh,
    table_events, table_built_after, getDistanceFunctionLookTable, call_entry,
    bind, ret, emit, deref, new_solver, delete_solver.
  cbv zeta.
  destruct (table_built w ns) eqn:Eb; cbn [heap table_built trace]; rewrite ?Eb;
    destruct (OBJECT_TYPE_eqb (getObjectType o1) OT_GEOM && OBJECT_TYPE_eqb (getObjectType o2) OT_BVH);
    match goal with
    | |- context [distance_matrix ns ?a ?b] => destruct (distance_matrix ns a b) as [f|]
    end;
    cbn [heap table_built trace]; rewrite ?nth_error_fresh; cbn [heap table_built trace];
    rewrite ?nth_error_fresh, ?list_set_fresh; cbn [app]; rewrite <- ?app_assoc; cbn [app];
    reflexivity.
Qed.

Lemma new_events_app (w : World (T:=T) GeomData SolverInst) hp tb (evs : list (Event GeomData)) :
  new_events w (mkWorld hp tb (trace w ++ evs)) = evs.
Proof.
  unfold new_events. cbn [trace]. rewrite skipn_app, skipn_all, Nat.sub_diag. reflexivity.
Qed.

Lemma table_events_no_alloc ns (w : World (T:=T) GeomData SolverInst) :
  filter (@is_alloc_event T GeomData) (table_events ns w) = [].
Proof. unfold table_events. destruct (table_built w ns); reflexivity. Qed.

Lemma table_events_no_call ns (w : World (T:=T) GeomData SolverInst) :
  filter (@is_call_event T GeomData) (table_events ns w) = [].
Proof. unfold table_events. destruct (table_built w ns); reflexivity. Qed.

Lemma call_event_no_alloc ns (o1 : CollisionGeometry GeomData) (tf1 : Transform3 T)
    (o2 : CollisionGeometry GeomData) (tf2 : Transform3 T) l :
  is_alloc_event (call_event ns o1 tf1 o2 tf2 l) = false.
Proof. unfold call_event. destruct (is_geom_bvh o1 o2); reflexivity. Qed.

Lemma is_geom_bvh_mixed (p h : CollisionGeometry GeomData) :
  getObjectType p = OT_GEOM -> getObjectType h = OT_BVH ->
  is_geom_bvh p h = true /\ is_geom_bvh h p = false.
Proof. unfold is_geom_bvh. intros -> ->. split; reflexivity. Qed.

Lemma is_geom_bvh_swap (o1 o2 : CollisionGeometry GeomData) :
  is_geom_bvh o1 o2 = true -> is_geom_bvh o2 o1 = false.
Proof.
  unfold is_geom_bvh.
  destruct (getObjectType o1), (getObjectType o2); try discriminate; reflexivity.
Qed.

Lemma table_events_no_cerr ns (w : World (T:=T) GeomData SolverInst) :
  filter (@is_cerr_event T GeomData) (table_events ns w) = [].
Proof. unfold table_events. destruct (table_built w ns); reflexivity. Qed.

Lemma call_event_is_call ns (o1 : CollisionGeometry GeomData) (tf1 : Transform3 T)
    (o2 : CollisionGeometry GeomData) (tf2 : Transform3 T) l :
  is_call_event (call_event ns o1 tf1 o2 tf2 l) = true.
Proof. unfold call_event. destruct (is_geom_bvh o1 o2); reflexivity. Qed.

(** The numeral printed for a node type reads back as that node type. *)
Lemma show_node_type_reads_back (t : NODE_TYPE) :
  decimal_value (show_node_type t) = Some t.
Proof.
  unfold decimal_value, show_node_type.
  rewrite NilZero.usu.
  - cbn [option_map]. rewrite DecimalNat.Unsigned.of_to. reflexivity.
  - intros E. pose proof (f_equal Nat.of_uint E) as E0.
    rewrite DecimalNat.Unsigned.of_to in E0. cbn in E0. subst t. discriminate E.
Qed.

(** C4. Unsupported pair.  When the cell the driver reads for a pair of
    geometries is empty, the call is defined (no undefined behaviour, no
    exception), returns [numeric_limits<Scalar>::max()], hands back the
    result object unchanged, and calls no routine; it writes exactly one
    line to [std::cerr], the text
    [Warning: distance function between node type N1 and node type N2 is
    not supported], where [N1] and [N2] are numerals whose decimal values
    are the node types of the first and of the second geometry.  This
    holds with a supplied and with a null solver pointer.  For a
    primitive/hierarchy pair the same holds with the two geometries given
    in the other order, the line then naming them in that order. *)
Theorem unsupported_pair_returns_sentinel
    ns o1 tf1 o2 tf2 (nsolver_ : option loc) request result w :
  consulted_cell distance_matrix ns o1 o2 = None ->
  (exists w' N1 N2,
      run ns o1 tf1 o2 tf2 nsolver_ request result w = Some ((smax, result), w') /\
      filter (@is_cerr_event T GeomData) (new_events w w') =
        [EvCerr ("Warning: distance function between node type " ++ N1
                 ++ " and node type " ++ N2 ++ " is not supported")%string] /\
      decimal_value N1 = Some (getNodeType o1) /\
      decimal_value N2 = Some (getNodeType o2) /\
      filter (@is_call_event T GeomData) (new_events w w') = []) /\
  (is_geom_bvh o1 o2 = true \/ is_geom_bvh o2 o1 = true ->
   exists w' N1 N2,
      run ns o2 tf2 o1 tf1 nsolver_ request result w = Some ((smax, result), w') /\
      filter (@is_cerr_event T GeomData) (new_events w w') =
        [EvCerr ("Warning: distance function between node type " ++ N2
                 ++ " and node type " ++ N1 ++ " is not supported")%string] /\
      decimal_value N1 = Some (getNodeType o1) /\
      decimal_value N2 = Some (getNodeType o2) /\
      filter (@is_call_event T GeomData) (new_events w w') = []).
Proof.
  assert (Main : forall a tfa b tfb,
             consulted_cell distance_matrix ns a b = None ->
             exists w',
               run ns a tfa b tfb nsolver_ request result w = Some ((smax, result), w') /\
               filter (@is_cerr_event T GeomData) (new_events w w') =
                 [EvCerr ("Warning: distance function between node type "
                          ++ show_node_type (getNodeType a)
                          ++ " and node type " ++ show_node_type (getNodeType b)
                          ++ " is not supported")%string] /\
               filter (@is_call_event T GeomData) (new_events w w') = []).
  { intros a tfa b tfb Hcell. destruct nsolver_ as [l|].
    - rewrite run_borrowed, Hcell. eexists. split; [reflexivity|].
      rewrite new_events_app, !filter_app, table_events_no_cerr, table_events_no_call.
      split; reflexivity.
    - rewrite run_owned, Hcell. cbv zeta. eexists. split; [reflexivity|].
      rewrite new_events_app, !filter_app, table_events_no_cerr, table_events_no_call.
      split; reflexivity. }
  intros Hcell. split.
  - destruct (Main o1 tf1 o2 tf2 Hcell) as (w' & Hrun & Hline & Hcall).
    exists w', (show_node_type (getNodeType o1)), (show_node_type (getNodeType o2)).
    split; [exact Hrun|]. split; [exact Hline|].
    split; [apply show_node_type_reads_back|].
    split; [apply show_node_type_reads_back | exact Hcall].
  - intros Hmixed.
    assert (Hcell' : consulted_cell distance_matrix ns o2 o1 = None).
    { unfold consulted_cell in *.
      destruct Hmixed as [H | H].
      - rewrite (is_geom_bvh_swap _ _ H). rewrite H in Hcell. exact Hcell.
      - rewrite H. rewrite (is_geom_bvh_swap _ _ H) in Hcell. exact Hcell. }
    destruct (Main o2 tf2 o1 tf1 Hcell') as (w' & Hrun & Hline & Hcall).
    exists w', (show_node_type (getNodeType o1)), (show_node_type (getNodeType o2)).
    split; [exact Hrun|]. split; [exact Hline|].
    split; [apply show_node_type_reads_back|].
    split; [apply show_node_type_reads_back | exact Hcall].
Qed.

(** C5. Order invariance for mixed kinds.  For a primitive [p] and a
    hierarchy [h], the calls [distance(p, tfp, h, tfh, ...)] and
    [distance(h, tfh, p, tfp, ...)] are both governed by the one cell at
    row [h]'s node type and column [p]'s node type, whatever the rest of
    the table holds.  When that cell holds a routine [f] and the solver
    pointer is live (or null, and then the solver is the one the driver
    constructs), each of the two runs makes exactly one call, to [f] as
    the routine of that cell, with the hierarchy operand first, on
    [(h, tfh, p, tfp)], and returns what [f] returns; the two runs then
    coincide entirely.  When that cell is empty both runs return the
    sentinel and call nothing.  In every case the two runs report the
    same distance. *)
Theorem mixed_pair_order_invariance
    ns p tfp h tfh (nsolver_ : option loc) request result w :
  getObjectType p = OT_GEOM -> getObjectType h = OT_BVH ->
  (forall f s l,
      distance_matrix ns (getNodeType h) (getNodeType p) = Some f ->
      (nsolver_ = Some l /\ nth_error (heap w) l = Some (Some s)) \/
      (nsolver_ = None /\ s = default_solver ns /\ l = List.length (heap w)) ->
      exists w',
        run ns p tfp h tfh nsolver_ request result w
          = Some (f h tfh p tfp s request result, w') /\
        run ns h tfh p tfp nsolver_ request result w
          = Some (f h tfh p tfp s request result, w') /\
        filter (@is_call_event T GeomData) (new_events w w')
          = [EvCall ns (getNodeType h) (getNodeType p) h tfh p tfp l]) /\
  (distance_matrix ns (getNodeType h) (getNodeType p) = None ->
      exists w1 w2,
        run ns p tfp h tfh nsolver_ request result w = Some ((smax, result), w1) /\
        run ns h tfh p tfp nsolver_ request result w = Some ((smax, result), w2) /\
        filter (@is_call_event T GeomData) (new_events w w1) = [] /\
        filter (@is_call_event T GeomData) (new_events w w2) = []) /\
  returned (run ns p tfp h tfh nsolver_ request result w) =
  returned (run ns h tfh p tfp nsolver_ request result w) /\
  (forall f, distance_matrix ns (getNodeType h) (getNodeType p) = Some f ->
             run ns p tfp h tfh nsolver_ request result w =
             run ns h tfh p tfp nsolver_ request result w).
Proof.
  intros Hp Hh. destruct (is_geom_bvh_mixed p h Hp Hh) as [E1 E2].
  assert (C1 : consulted_cell distance_matrix ns p h =
               distance_matrix ns (getNodeType h) (getNodeType p))
    by (unfold consulted_cell; rewrite E1; reflexivity).
  assert (C2 : consulted_cell distance_matrix ns h p =
               distance_matrix ns (getNodeType h) (getNodeType p))
    by (unfold consulted_cell; rewrite E2; reflexivity).
  assert (CE1 : forall l, call_event ns p tfp h tfh l =
                          EvCall ns (getNodeType h) (getNodeType p) h tfh p tfp l)
    by (intros l; unfold call_event; rewrite E1; reflexivity).
  assert (CE2 : forall l, call_event ns h tfh p tfp l =
                          EvCall ns (getNodeType h) (getNodeType p) h tfh p tfp l)
    by (intros l; unfold call_event; rewrite E2; reflexivity).
  assert (CV1 : forall (f : DistanceFunc GeomData SolverInst RequestData DistanceResult)
                       (s : SolverInst),
                 call_value f p tfp h tfh s request result = f h tfh p tfp s request result)
    by (intros f s; unfold call_value; rewrite E1; reflexivity).
  assert (CV2 : forall (f : DistanceFunc GeomData SolverInst RequestData DistanceResult)
                       (s : SolverInst),
                 call_value f h tfh p tfp s request result = f h tfh p tfp s request result)
    by (intros f s; unfold call_value; rewrite E2; reflexivity).
  split; [|split; [|split]].
  - intros f s l Hf [[Hn Hl] | [Hn [Hs Hlen]]]; subst nsolver_.
    + rewrite !run_borrowed, C1, C2, Hf, Hl, CV1, CV2, CE1, CE2.
      eexists. split; [reflexivity|]. split; [reflexivity|].
      rewrite new_events_app, filter_app, table_events_no_call. reflexivity.
    + subst s l. rewrite !run_owned, C1, C2, Hf. cbv zeta. rewrite CV1, CV2, CE1, CE2.
      eexists. split; [reflexivity|]. split; [reflexivity|].
      rewrite new_events_app, !filter_app, table_events_no_call. reflexivity.
  - intros Hf. destruct nsolver_ as [l|].
    + rewrite !run_borrowed, C1, C2, Hf.
      eexists. eexists. split; [reflexivity|]. split; [reflexivity|].
      rewrite !new_events_app, !filter_app, table_events_no_call. split; reflexivity.
    + rewrite !run_owned, C1, C2, Hf. cbv zeta.
      eexists. eexists. split; [reflexivity|]. split; [reflexivity|].
      rewrite !new_events_app, !filter_app, table_events_no_call. split; reflexivity.
  - destruct nsolver_ as [l|].
    + rewrite !run_borrowed, C1, C2.
      destruct (distance_matrix ns (getNodeType h) (getNodeType p)) as [f|]; [| reflexivity].
      destruct (nth_error (heap w) l) as [[s|]|]; try reflexivity.
      cbn [returned option_map fst]. rewrite CV1, CV2. reflexivity.
    + rewrite !run_owned, C1, C2. cbv zeta.
      destruct (distance_matrix ns (getNodeType h) (getNodeType p)) as [f|]; [| reflexivity].
      cbn [returned option_map fst]. rewrite CV1, CV2. reflexivity.
  - intros f Hf. destruct nsolver_ as [l|].
    + rewrite !run_borrowed, C1, C2, Hf.
      destruct (nth_error (heap w) l) as [[s|]|]; try reflexivity.
      rewrite CV1, CV2, CE1, CE2. reflexivity.
    + rewrite !run_owned, C1, C2, Hf. cbv zeta. rewrite CV1, CV2, CE1, CE2. reflexivity.
Qed.

(** C9. Solver-instance lifecycle.  A call given a non-null solver
    pointer leaves the store of solver instances as it found it and takes
    no [new] or [delete] step, and it is defined whenever the pointer is
    live.  A call given the null pointer is always defined; its first step
    is [new] at a fresh address, its last step is [delete] of that same
    address, no other [new] or [delete] happens in between, and on return
    the fresh cell is dead and every other cell is as before.  This covers
    the unsupported-pair path, where the call returns the sentinel. *)
Theorem solver_lifecycle ns o1 tf1 o2 tf2 request result w :
  (forall l out w',
      run ns o1 tf1 o2 tf2 (Some l) request result w = Some (out, w') ->
      heap w' = heap w /\ filter (@is_alloc_event T GeomData) (new_events w w') = []) /\
  (forall l s,
      nth_error (heap w) l = Some (Some s) ->
      exists out w', run ns o1 tf1 o2 tf2 (Some l) request result w = Some (out, w')) /\
  (exists out w' mid,
      run ns o1 tf1 o2 tf2 None request result w = Some (out, w') /\
      heap w' = heap w ++ [None] /\
      new_events w w' = [EvNew (List.length (heap w))] ++ mid ++ [EvDelete (List.length (heap w))] /\
      filter (@is_alloc_event T GeomData) mid = [] /\
      (consulted_cell distance_matrix ns o1 o2 = None -> out = (smax, result))).
Proof.
  split; [|split].
  - intros l out w' Hrun. rewrite run_borrowed in Hrun.
    destruct (consulted_cell distance_matrix ns o1 o2) as [f|].
    + destruct (nth_error (heap w) l) as [[s|]|]; try discriminate.
      injection Hrun as _ Hw. subst w'. rewrite new_events_app. cbn [heap].
      split; [reflexivity|].
      rewrite filter_app, table_events_no_alloc. cbn [filter app].
      rewrite call_event_no_alloc. reflexivity.
    + injection Hrun as _ Hw. subst w'. rewrite new_events_app. cbn [heap].
      split; [reflexivity|].
      rewrite filter_app, table_events_no_alloc. reflexivity.
  - intros l s Hl. rewrite run_borrowed, Hl.
    destruct (consulted_cell distance_matrix ns o1 o2) as [f|]; eexists; eexists; reflexivity.
  - rewrite run_owned. cbv zeta.
    destruct (consulted_cell distance_matrix ns o1 o2) as [f|].
    + eexists. eexists.
      exists (table_events ns w ++ [call_event ns o1 tf1 o2 tf2 (List.length (heap w))]).
      split; [reflexivity|]. cbn [heap]. split; [reflexivity|].
      rewrite new_events_app. split; [rewrite <- !app_assoc; reflexivity|].
      split; [| discriminate].
      rewrite filter_app, table_events_no_alloc. cbn [filter app].
      rewrite call_event_no_alloc. reflexivity.
    + eexists. eexists.
      exists (table_events ns w ++ [EvCerr (warning_unsupported (getNodeType o1) (getNodeType o2))]).
      split; [reflexivity|]. cbn [heap]. split; [reflexivity|].
      rewrite new_events_app. split; [rewrite <- !app_assoc; reflexivity|].
      split; [| reflexivity].
      rewrite filter_app, table_events_no_alloc. reflexivity.
Qed.

(** C10. Invalid solver type.  When [request.gjk_solver_type] is neither
    [GST_LIBCCD] nor [GST_INDEP], both top-level entry points return [-1]
    and the program state is exactly as before: no table is constructed,
    no routine is called, nothing is allocated or printed, and the result
    object is handed back unchanged.  The value [-1] differs from the
    sentinel [max], over the reals and on doubles. *)
Theorem invalid_solver_type_returns_minus_one
    (o1 o2 : CollisionObject (T:=T) GeomData)
    (g1 : CollisionGeometry GeomData) (tf1 : Transform3 T)
    (g2 : CollisionGeometry GeomData) (tf2 : Transform3 T)
    (request : DistanceRequest RequestData) (result : DistanceResult)
    (w : World (T:=T) GeomData SolverInst) :
  gjk_solver_type request <> GST_LIBCCD ->
  gjk_solver_type request <> GST_INDEP ->
  (distance_obj distance_matrix default_solver o1 o2 request result w
     = Some ((sofZ (-1), result), w) /\
   distance_geom distance_matrix default_solver g1 tf1 g2 tf2 request result w
     = Some ((sofZ (-1), result), w)) /\
  (@sofZ R _ (-1) <> @smax R _ /\
   @seqb PrimFloat.float _ (sofZ (-1)) smax = false).
Proof.
  intros H1 H2. split.
  - unfold distance_obj, distance_geom.
    apply Z.eqb_neq in H1. apply Z.eqb_neq in H2. rewrite H1, H2.
    split; reflexivity.
  - split; [| reflexivity].
    cbn [sofZ smax Scalar_R]. pose proof Rmax_value_pos. lra.
Qed.

End DriverFacts.

(** ** Worked runs of the driver on doubles *)

Example run_mixed_pair_double :
  let run o1 o2 :=
    distance_solver_geom example_matrix example_default_solver GJKSolver_libccd
      o1 Identity o2 Identity None (example_request GST_LIBCCD) (float_of_Z 0) example_world in
  let expected :=
    Some ((float_of_Z 7, float_of_Z 7),
          mkWorld [None]
                  (fun ns' => if NarrowPhaseSolver_eqb ns' GJKSolver_libccd then true else false)
                  [EvNew 0; EvTableInit GJKSolver_libccd;
                   EvCall GJKSolver_libccd 1 9 example_mesh Identity example_box Identity 0;
                   EvDelete 0]) in
  run example_box example_mesh = expected /\ run example_mesh example_box = expected.
Proof. cbv zeta. split; reflexivity. Qed.

Example run_unsupported_pair_double :
  distance_solver_geom example_matrix example_default_solver GJKSolver_indep
    example_ball Identity example_mesh Identity None (example_request GST_INDEP)
    (float_of_Z 0) example_world
  = Some ((DBL_MAX, float_of_Z 0),
          mkWorld [None]
                  (fun ns' => if NarrowPhaseSolver_eqb ns' GJKSolver_indep then true else false)
                  [EvNew 0; EvTableInit GJKSolver_indep;
                   EvCerr "Warning: distance function between node type 10 and node type 1 is not supported";
                   EvDelete 0]).
Proof. reflexivity. Qed.

Example run_top_level_double :
  distance_geom example_matrix example_default_solver
    example_box Identity example_mesh Identity (example_request GST_LIBCCD)
    (float_of_Z 0) example_world
  = Some ((float_of_Z 7, float_of_Z 7),
          mkWorld [None]
                  (fun ns' => if NarrowPhaseSolver_eqb ns' GJKSolver_libccd then true else false)
                  [EvTableInit GJKSolver_libccd;
                   EvCall GJKSolver_libccd 1 9 example_mesh Identity example_box Identity 0]) /\
  distance_geom example_matrix example_default_solver
    example_box Identity example_mesh Identity (example_request 2%Z)
    (float_of_Z 0) example_world
  = Some ((float_of_Z (-1), float_of_Z 0), example_world).
Proof. split; reflexivity. Qed.

Lemma unsupported_pair_returns_sentinel_witness :
  consulted_cell example_matrix GJKSolver_indep example_ball example_mesh = None /\
  returned (distance_solver_geom example_matrix example_default_solver GJKSolver_indep
              example_ball Identity example_mesh Identity None (example_request GST_INDEP)
              (float_of_Z 0) example_world) = Some DBL_MAX /\
  returned (distance_solver_geom example_matrix example_default_solver GJKSolver_indep
              example_mesh Identity example_ball Identity None (example_request GST_INDEP)
              (float_of_Z 0) example_world) = Some DBL_MAX.
Proof.
  assert (H : consulted_cell example_matrix GJKSolver_indep example_ball example_mesh = None)
    by reflexivity.
  split; [exact H|].
  destruct (unsupported_pair_returns_sentinel unit nat unit PrimFloat.float
              example_matrix example_default_solver GJKSolver_indep
              example_ball Identity example_mesh Identity None (example_request GST_INDEP)
              (float_of_Z 0) example_world H) as [(w1 & _ & _ & Hrun1 & _) Hswap].
  destruct (Hswap (or_introl eq_refl)) as (w2 & _ & _ & Hrun2 & _).
  rewrite Hrun1, Hrun2. split; reflexivity.
Defined.

Lemma mixed_pair_order_invariance_witness :
  getObjectType example_box = OT_GEOM /\ getObjectType example_mesh = OT_BVH /\
  example_matrix GJKSolver_libccd (getNodeType example_mesh) (getNodeType example_box)
  = Some example_routine /\
  returned (distance_solver_geom example_matrix example_default_solver GJKSolver_libccd
              example_box Identity example_mesh Identity None (example_request GST_LIBCCD)
              (float_of_Z 0) example_world) = Some (float_of_Z 7) /\
  returned (distance_solver_geom example_matrix example_default_solver GJKSolver_libccd
              example_mesh Identity example_box Identity None (example_request GST_LIBCCD)
              (float_of_Z 0) example_world) = Some (float_of_Z 7).
Proof.
  split; [reflexivity|]. split; [reflexivity|]. split; [reflexivity|].
  destruct (proj1 (mixed_pair_order_invariance unit nat unit PrimFloat.float
                     example_matrix example_default_solver GJKSolver_libccd
                     example_box Identity example_mesh Identity None
                     (example_request GST_LIBCCD) (float_of_Z 0) example_world
                     eq_refl eq_refl)
                  example_routine (example_default_solver GJKSolver_libccd) 0%nat eq_refl
                  (or_intror (conj eq_refl (conj eq_refl eq_refl))))
    as (w' & Hrun1 & Hrun2 & _).
  rewrite Hrun1, Hrun2. split; reflexivity.
Defined.

Lemma invalid_solver_type_returns_minus_one_witness :
  gjk_solver_type (example_request 2%Z) <> GST_LIBCCD /\
  gjk_solver_type (example_request 2%Z) <> GST_INDEP /\
  distance_geom example_matrix example_default_solver
    example_box Identity example_mesh Identity (example_request 2%Z)
    (float_of_Z 0) example_world
  = Some ((float_of_Z (-1), float_of_Z 0), example_world).
Proof.
  assert (H1 : gjk_solver_type (example_request 2%Z) <> GST_LIBCCD) by discriminate.
  assert (H2 : gjk_solver_type (example_request 2%Z) <> GST_INDEP) by discriminate.
  split; [exact H1|]. split; [exact H2|].
  exact (proj2 (proj1 (invalid_solver_type_returns_minus_one unit nat unit PrimFloat.float
                  example_matrix example_default_solver
                  (mkCollisionObject example_box Identity) (mkCollisionObject example_mesh Identity)
                  example_box Identity example_mesh Identity
                  (example_request 2%Z) (float_of_Z 0) example_world H1 H2))).
Defined.

(* ===================================================================== *)
(** * Further properties *)
(* ===================================================================== *)

(** ** The half-space as a set of points *)

Local Open Scope R_scope.

Lemma sqrt_scaled (k s : R) : 0 < k -> 0 <= s -> sqrt (k * k * s) = k * sqrt s.
Proof.
  intros Hk Hs. rewrite sqrt_mult by nra. rewrite sqrt_square by lra. reflexivity.
Qed.

Lemma sum_sq_nonneg (a b c : R) : 0 <= a * a + b * b + c * c.
Proof. nra. Qed.

Lemma sqrt_sum_sq_zero (a b c : R) :
  sqrt (a * a + b * b + c * c) = 0 -> a = 0 /\ b = 0 /\ c = 0.
Proof.
  intros H. apply sqrt_eq_0 in H; [| apply sum_sq_nonneg]. repeat split; nra.
Qed.

(** X1. Reading the fields of a constructed half-space and constructing
    again gives the same half-space: normalisation is idempotent. *)
Theorem constructor_fields_round_trip (a b c e : R) :
  let h := Halfspace_abcd a b c e in
  unitNormalTest h = h /\
  Halfspace_nd (n h) (d h) = h /\
  Halfspace_abcd (n h).[0] (n h).[1] (n h).[2] (d h) = h.
Proof.
  cbv zeta.
  assert (Hu : unit_normal (Halfspace_abcd a b c e))
    by (unfold Halfspace_abcd; apply unitNormalTest_is_unit).
  pose proof (unitNormalTest_unit _ Hu) as E.
  split; [exact E|].
  destruct (Halfspace_abcd a b c e) as [[x y z] f]. split; exact E.
Qed.

(** X2. The four coefficients of a plane equation may be scaled by any
    positive factor without changing the constructed half-space. *)
Theorem constructor_positive_scaling (k a b c e : R) :
  0 < k ->
  Halfspace_abcd (k * a) (k * b) (k * c) (k * e) = Halfspace_abcd a b c e.
Proof.
  intros Hk.
  assert (ES : k * a * (k * a) + k * b * (k * b) + k * c * (k * c)
               = k * k * (a * a + b * b + c * c)) by ring.
  assert (EL : sqrt (k * a * (k * a) + k * b * (k * b) + k * c * (k * c))
               = k * sqrt (a * a + b * b + c * c)).
  { rewrite ES. apply sqrt_scaled; [exact Hk | apply sum_sq_nonneg]. }
  change (Halfspace_nd (mkVector3 (k * a) (k * b) (k * c)) (k * e)
          = Halfspace_nd (mkVector3 a b c) e).
  destruct (Req_dec_T (sqrt (a * a + b * b + c * c)) 0) as [H0 | Hne].
  - rewrite (Halfspace_nd_degenerate a b c e H0).
    apply Halfspace_nd_degenerate. rewrite EL, H0. ring.
  - rewrite (Halfspace_nd_normalized a b c e Hne).
    rewrite Halfspace_nd_normalized by (rewrite EL; nra).
    rewrite EL. f_equal; [f_equal|]; field; split; lra.
Qed.

Lemma constructor_positive_scaling_witness :
  Halfspace_abcd (2 * 3) (2 * 0) (2 * 4) (2 * 10) = Halfspace_abcd 3 0 4 10.
Proof. apply (constructor_positive_scaling 2 3 0 4 10). lra. Defined.

(** X3. Negating the four coefficients gives the opposite half-space:
    the stored normal and offset change sign, so the signed distance of
    every point changes sign and its distance is unchanged (for a normal
    of nonzero length). *)
Theorem constructor_negation (a b c e : R) (p : Vector3 R) :
  sqrt (a * a + b * b + c * c) <> 0 ->
  n (Halfspace_abcd (- a) (- b) (- c) (- e)) = vneg (n (Halfspace_abcd a b c e)) /\
  d (Halfspace_abcd (- a) (- b) (- c) (- e)) = - d (Halfspace_abcd a b c e) /\
  signedDistance (Halfspace_abcd (- a) (- b) (- c) (- e)) p
    = - signedDistance (Halfspace_abcd a b c e) p /\
  distance (Halfspace_abcd (- a) (- b) (- c) (- e)) p = distance (Halfspace_abcd a b c e) p.
Proof.
  intros Hne.
  assert (EL : sqrt (- a * - a + - b * - b + - c * - c) = sqrt (a * a + b * b + c * c))
    by (f_equal; ring).
  change (Halfspace_abcd (- a) (- b) (- c) (- e))
    with (Halfspace_nd (mkVector3 (- a) (- b) (- c)) (- e)).
  change (Halfspace_abcd a b c e) with (Halfspace_nd (mkVector3 a b c) e).
  rewrite (Halfspace_nd_normalized a b c e Hne).
  rewrite Halfspace_nd_normalized by (rewrite EL; exact Hne).
  rewrite EL. set (L := sqrt (a * a + b * b + c * c)) in *.
  destruct p as [x y z].
  unfold signedDistance, distance, vneg. cbn [n d]. unvec.
  split; [f_equal; field; exact Hne|].
  split; [field; exact Hne|].
  assert (E : - a / L * x + - b / L * y + - c / L * z - - e / L
              = - (a / L * x + b / L * y + c / L * z - e / L)) by (field; exact Hne).
  split; [exact E|]. rewrite E. apply Rabs_Ropp.
Qed.

Lemma constructor_negation_witness :
  sqrt (3 * 3 + 0 * 0 + 4 * 4) <> 0 /\
  distance (Halfspace_abcd (- 3) (- 0) (- 4) (- 10)) point_123
  = distance (Halfspace_abcd 3 0 4 10) point_123.
Proof.
  assert (H : sqrt (3 * 3 + 0 * 0 + 4 * 4) <> 0).
  { intros H0. apply sqrt_eq_0 in H0; lra. }
  split; [exact H|].
  exact (proj2 (proj2 (proj2 (constructor_negation 3 0 4 10 point_123 H)))).
Defined.

(** X4. Normalisation keeps the set of points: for a normal of nonzero
    length the constructed half-space contains exactly the points with
    [a x + b y + c z <= d]; for a zero normal it is [x <= 0] whatever [d]
    is. *)
Theorem constructor_keeps_point_set (a b c e : R) (p : Vector3 R) :
  (sqrt (a * a + b * b + c * c) <> 0 ->
   (halfspace_contains (Halfspace_abcd a b c e) p = true
    <-> a * p.[0] + b * p.[1] + c * p.[2] <= e)) /\
  (sqrt (a * a + b * b + c * c) = 0 ->
   (halfspace_contains (Halfspace_abcd a b c e) p = true <-> p.[0] <= 0)).
Proof.
  change (Halfspace_abcd a b c e) with (Halfspace_nd (mkVector3 a b c) e).
  destruct p as [x y z]. split.
  - intros Hne. rewrite (Halfspace_nd_normalized a b c e Hne).
    pose proof (sqrt_pos (a * a + b * b + c * c)) as HL.
    set (L := sqrt (a * a + b * b + c * c)) in *.
    rewrite halfspace_contains_R. cbn [n d]. unvec.
    assert (HiL : 0 < / L) by (apply Rinv_0_lt_compat; lra).
    replace (a / L * x + b / L * y + c / L * z) with ((a * x + b * y + c * z) * / L)
      by (field; exact Hne).
    unfold Rdiv. split; intros H.
    + apply Rmult_le_reg_r with (r := / L); assumption.
    + apply Rmult_le_compat_r; lra.
  - intros H0. rewrite (Halfspace_nd_degenerate a b c e H0).
    rewrite halfspace_contains_R. cbn [n d]. unvec. split; intros; lra.
Qed.

(** ** Distances and rigid motions *)

Lemma cauchy_schwarz (u v : Vector3 R) :
  dot u v * dot u v <= dot u u * dot v v.
Proof.
  destruct u as [u0 u1 u2], v as [v0 v1 v2]. unvec.
  pose proof (Rle_0_sqr (u0 * v1 - u1 * v0)) as H01.
  pose proof (Rle_0_sqr (u0 * v2 - u2 * v0)) as H02.
  pose proof (Rle_0_sqr (u1 * v2 - u2 * v1)) as H12.
  unfold Rsqr in *. nra.
Qed.

Lemma Rabs_le_sqrt (x s : R) : x * x <= s -> Rabs x <= sqrt s.
Proof.
  intros H. rewrite <- sqrt_Rsqr_abs. apply sqrt_le_1_alt. exact H.
Qed.

(** X5. For a unit normal, [distance(p)] is the Euclidean distance from
    [p] to the boundary plane: the foot point [p - signedDistance(p) * n]
    lies on the plane at that distance from [p], and no point of the plane
    is closer. *)
Theorem distance_is_euclidean (h : Halfspace R) (p y : Vector3 R) :
  unit_normal h ->
  signedDistance h (foot_point h p) = 0 /\
  norm (vsub p (foot_point h p)) = distance h p /\
  (signedDistance h y = 0 -> distance h p <= norm (vsub p y)).
Proof.
  unfold unit_normal. intros Hu.
  split; [|split].
  - destruct h as [[a b c] e], p as [x0 x1 x2].
    unfold foot_point, signedDistance in *. cbn [n d] in *. unvec.
    replace (a * (x0 - a * (a * x0 + b * x1 + c * x2 - e))
             + b * (x1 - b * (a * x0 + b * x1 + c * x2 - e))
             + c * (x2 - c * (a * x0 + b * x1 + c * x2 - e)) - e)
      with ((a * x0 + b * x1 + c * x2 - e) * (1 - (a * a + b * b + c * c))) by ring.
    rewrite Hu. ring.
  - destruct h as [[a b c] e], p as [x0 x1 x2].
    unfold foot_point, signedDistance, distance in *. cbn [n d] in *. unvec.
    set (s := a * x0 + b * x1 + c * x2 - e).
    replace ((x0 - (x0 - a * s)) * (x0 - (x0 - a * s))
             + (x1 - (x1 - b * s)) * (x1 - (x1 - b * s))
             + (x2 - (x2 - c * s)) * (x2 - (x2 - c * s)))
      with (s * s * (a * a + b * b + c * c)) by ring.
    rewrite Hu, Rmult_1_r. apply sqrt_Rsqr_abs.
  - intros Hy. unfold distance, norm. rsc.
    apply Rabs_le_sqrt.
    pose proof (cauchy_schwarz (n h) (vsub p y)) as CS. rewrite Hu in CS.
    assert (E : dot (n h) p - d h = dot (n h) (vsub p y)).
    { unfold signedDistance in Hy. rsc.
      destruct h as [[a b c] e], p as [x0 x1 x2], y as [y0 y1 y2].
      cbn [n d] in *. unvec. lra. }
    rewrite E. lra.
Qed.

Lemma halfspace_345_unit : unit_normal halfspace_345.
Proof. unfold unit_normal, halfspace_345. unvec. field. Qed.

Lemma distance_is_euclidean_witness :
  unit_normal halfspace_345 /\
  norm (vsub point_123 (foot_point halfspace_345 point_123))
  = distance halfspace_345 point_123.
Proof.
  split; [exact halfspace_345_unit|].
  exact (proj1 (proj2 (distance_is_euclidean halfspace_345 point_123 point_123
                         halfspace_345_unit))).
Defined.

(** X6. A rigid transform carries the half-space with its points: a point
    and its image have the same signed distance and the same distance to
    the half-space and its transform, and the image is inside exactly when
    the point is. *)
Theorem transform_preserves_distance (h : Halfspace R) (tf : Transform3 R) (x : Vector3 R) :
  unit_normal h -> rigid tf ->
  signedDistance (transform h tf) (apply_tf tf x) = signedDistance h x /\
  distance (transform h tf) (apply_tf tf x) = distance h x /\
  halfspace_contains (transform h tf) (apply_tf tf x) = halfspace_contains h x.
Proof.
  intros Hu Hr.
  pose proof (transform_signed_distance h tf x Hu Hr) as E.
  split; [exact E|]. split.
  - unfold signedDistance in E. unfold distance. rsc. rewrite E. reflexivity.
  - apply transform_maps_halfspace; assumption.
Qed.

Lemma transform_preserves_distance_witness :
  unit_normal halfspace_345 /\ rigid quarter_turn_z /\
  distance (transform halfspace_345 quarter_turn_z) (apply_tf quarter_turn_z point_123)
  = distance halfspace_345 point_123.
Proof.
  split; [exact halfspace_345_unit|]. split; [exact quarter_turn_z_rigid|].
  exact (proj1 (proj2 (transform_preserves_distance halfspace_345 quarter_turn_z point_123
                         halfspace_345_unit quarter_turn_z_rigid))).
Defined.

Lemma transpose_mat_vec_orthonormal (m : Matrix3 R) (v : Vector3 R) :
  orthonormal m -> mat_vec (transpose m) (mat_vec m v) = v.
Proof.
  intros H. orth_facts H.
  destruct m as [[a00 a01 a02] [a10 a11 a12] [a20 a21 a22]]. destruct v as [v0 v1 v2].
  cbn [Nat.eqb] in *. unfold transpose. unvec.
  f_equal.
  - replace (a00 * (a00 * v0 + a01 * v1 + a02 * v2) + a10 * (a10 * v0 + a11 * v1 + a12 * v2)
             + a20 * (a20 * v0 + a21 * v1 + a22 * v2))
      with (v0 * (a00 * a00 + a10 * a10 + a20 * a20)
            + v1 * (a00 * a01 + a10 * a11 + a20 * a21)
            + v2 * (a00 * a02 + a10 * a12 + a20 * a22)) by ring.
    rewrite H0, H1, H2. ring.
  - replace (a01 * (a00 * v0 + a01 * v1 + a02 * v2) + a11 * (a10 * v0 + a11 * v1 + a12 * v2)
             + a21 * (a20 * v0 + a21 * v1 + a22 * v2))
      with (v0 * (a00 * a01 + a10 * a11 + a20 * a21)
            + v1 * (a01 * a01 + a11 * a11 + a21 * a21)
            + v2 * (a01 * a02 + a11 * a12 + a21 * a22)) by ring.
    rewrite H1, H3, H4. ring.
  - replace (a02 * (a00 * v0 + a01 * v1 + a02 * v2) + a12 * (a10 * v0 + a11 * v1 + a12 * v2)
             + a22 * (a20 * v0 + a21 * v1 + a22 * v2))
      with (v0 * (a00 * a02 + a10 * a12 + a20 * a22)
            + v1 * (a01 * a02 + a11 * a12 + a21 * a22)
            + v2 * (a02 * a02 + a12 * a12 + a22 * a22)) by ring.
    rewrite H2, H4, H5. ring.
Qed.

Lemma dot_transpose (m : Matrix3 R) (u v : Vector3 R) :
  dot u (mat_vec (transpose m) v) = dot (mat_vec m u) v.
Proof.
  destruct m as [[a00 a01 a02] [a10 a11 a12] [a20 a21 a22]].
  destruct u as [u0 u1 u2], v as [v0 v1 v2]. unfold transpose. unvec. ring.
Qed.

(** X7. Round trip: transforming a half-space by a rigid transform and
    then by its inverse gives back the half-space, and the inverse takes
    every image point back to its point. *)
Theorem transform_inverse_round_trip (h : Halfspace R) (tf : Transform3 R) (x : Vector3 R) :
  unit_normal h -> rigid tf ->
  transform (transform h tf) (inverse_rigid tf) = h /\
  apply_tf (inverse_rigid tf) (apply_tf tf x) = x.
Proof.
  intros Hu Hr. split.
  - rewrite (transform_rigid_unit h tf Hu Hr).
    unfold transform, Halfspace_nd. cbn [n d inverse_rigid linear translation]. rsc.
    rewrite (transpose_mat_vec_orthonormal _ _ Hr).
    assert (Ed : d h + dot (mat_vec (linear tf) (n h)) (translation tf)
                 + dot (n h) (vneg (mat_vec (transpose (linear tf)) (translation tf))) = d h).
    { pose proof (dot_transpose (linear tf) (n h) (translation tf)) as E.
      revert E. generalize (mat_vec (transpose (linear tf)) (translation tf)).
      generalize (dot (mat_vec (linear tf) (n h)) (translation tf)).
      destruct (n h) as [a b c]. intros r [t0 t1 t2]. unfold vneg. unvec. intros E. lra. }
    rewrite Ed. rewrite unitNormalTest_unit; [destruct h; reflexivity | exact Hu].
  - unfold apply_tf, inverse_rigid. cbn [linear translation].
    pose proof (transpose_mat_vec_orthonormal (linear tf) x Hr) as E.
    revert E. generalize (transpose (linear tf)). intros mt E.
    assert (L : forall u v, mat_vec mt (vadd u v) = vadd (mat_vec mt u) (mat_vec mt v)).
    { intros [u0 u1 u2] [v0 v1 v2]. destruct mt as [[? ? ?] [? ? ?] [? ? ?]].
      unvec. f_equal; ring. }
    rewrite L, E. destruct x as [x0 x1 x2].
    destruct (mat_vec mt (translation tf)) as [t0 t1 t2]. unfold vneg. unvec.
    f_equal; ring.
Qed.

Lemma transform_inverse_round_trip_witness :
  unit_normal halfspace_345 /\ rigid quarter_turn_z /\
  transform (transform halfspace_345 quarter_turn_z) (inverse_rigid quarter_turn_z)
  = halfspace_345.
Proof.
  split; [exact halfspace_345_unit|]. split; [exact quarter_turn_z_rigid|].
  exact (proj1 (transform_inverse_round_trip halfspace_345 quarter_turn_z point_123
                  halfspace_345_unit quarter_turn_z_rigid)).
Defined.

(** ** The fits as functions of their arguments *)

Lemma list_set_length {A : Type} (l : list A) (i : nat) (a : A) :
  List.length (list_set l i a) = List.length l.
Proof.
  revert i. induction l as [|x t IH]; intros [|i]; simpl; try reflexivity.
  now rewrite IH.
Qed.

Ltac cases_if :=
  repeat match goal with
         | |- context [if ?b then _ else _] => destruct b
         end.

(** X8. The box and polytope fits see the half-space and the transform
    only through the transformed half-space: fitting [s] under [tf] is
    fitting [transform(s, tf)] under the identity. *)
Theorem fit_of_transformed_halfspace (s : Halfspace R) (tf : Transform3 R) :
  (forall bv, ComputeBVImpl_AABB s tf bv = ComputeBVImpl_AABB (transform s tf) Identity bv) /\
  (forall bv, ComputeBVImpl_KDOP16 s tf bv = ComputeBVImpl_KDOP16 (transform s tf) Identity bv) /\
  (forall bv, ComputeBVImpl_KDOP18 s tf bv = ComputeBVImpl_KDOP18 (transform s tf) Identity bv) /\
  (forall bv, ComputeBVImpl_KDOP24 s tf bv = ComputeBVImpl_KDOP24 (transform s tf) Identity bv).
Proof.
  pose proof (transform_Identity_R (transform s tf) (transform_is_unit s tf)) as E.
  unfold ComputeBVImpl_AABB, ComputeBVImpl_KDOP16, ComputeBVImpl_KDOP18, ComputeBVImpl_KDOP24.
  cbv zeta. rewrite E. repeat split.
Qed.

Section FitFacts.

Context {T : Type} {ST : Scalar T}.

(** X9. For every scalar type, a polytope fit into an array of the right
    length does not depend on what the array held, keeps its length, and
    is the universal polytope with at most one entry overwritten. *)
Theorem KDOP_fit_overwrites_array (s : Halfspace T) (tf : Transform3 T) (bv bv' : KDOP T) :
  (List.length bv = 16%nat -> List.length bv' = 16%nat ->
   ComputeBVImpl_KDOP16 s tf bv = ComputeBVImpl_KDOP16 s tf bv' /\
   List.length (ComputeBVImpl_KDOP16 s tf bv) = 16%nat /\
   (ComputeBVImpl_KDOP16 s tf bv = universal_KDOP 8 \/
    exists k v, (k < 16)%nat /\ ComputeBVImpl_KDOP16 s tf bv = set_dist k v (universal_KDOP 8))) /\
  (List.length bv = 18%nat -> List.length bv' = 18%nat ->
   ComputeBVImpl_KDOP18 s tf bv = ComputeBVImpl_KDOP18 s tf bv' /\
   List.length (ComputeBVImpl_KDOP18 s tf bv) = 18%nat /\
   (ComputeBVImpl_KDOP18 s tf bv = universal_KDOP 9 \/
    exists k v, (k < 18)%nat /\ ComputeBVImpl_KDOP18 s tf bv = set_dist k v (universal_KDOP 9))) /\
  (List.length bv = 24%nat -> List.length bv' = 24%nat ->
   ComputeBVImpl_KDOP24 s tf bv = ComputeBVImpl_KDOP24 s tf bv' /\
   List.length (ComputeBVImpl_KDOP24 s tf bv) = 24%nat /\
   (ComputeBVImpl_KDOP24 s tf bv = universal_KDOP 12 \/
    exists k v, (k < 24)%nat /\ ComputeBVImpl_KDOP24 s tf bv = set_dist k v (universal_KDOP 12))).
Proof.
  split; [|split]; intros Hlen Hlen'.
  - unfold ComputeBVImpl_KDOP16. cbv zeta.
    rewrite (kdop_init_universal 8 bv Hlen), (kdop_init_universal 8 bv' Hlen').
    split; [reflexivity|].
    cases_if; (split; [reflexivity|]);
      first [left; reflexivity | right; eexists; eexists; split; [| reflexivity]; cbn; lia].
  - unfold ComputeBVImpl_KDOP18. cbv zeta.
    rewrite (kdop_init_universal 9 bv Hlen), (kdop_init_universal 9 bv' Hlen').
    split; [reflexivity|].
    cases_if; (split; [reflexivity|]);
      first [left; reflexivity | right; eexists; eexists; split; [| reflexivity]; cbn; lia].
  - unfold ComputeBVImpl_KDOP24. cbv zeta.
    rewrite (kdop_init_universal 12 bv Hlen), (kdop_init_universal 12 bv' Hlen').
    split; [reflexivity|].
    cases_if; (split; [reflexivity|]);
      first [left; reflexivity | right; eexists; eexists; split; [| reflexivity]; cbn; lia].
Qed.

(** X10. For every scalar type, the three polytope fits agree on the
    directions they share: the 16- and 18-entry fits on their first 8
    directions, the 18- and 24-entry fits on their first 9, lower and upper
    entries alike. *)
Theorem KDOP_fits_agree_on_shared_directions
    (s : Halfspace T) (tf : Transform3 T) (bv16 bv18 bv24 : KDOP T) (i : nat) :
  List.length bv16 = 16%nat -> List.length bv18 = 18%nat -> List.length bv24 = 24%nat ->
  ((i < 8)%nat ->
   dist (ComputeBVImpl_KDOP16 s tf bv16) i = dist (ComputeBVImpl_KDOP18 s tf bv18) i /\
   dist (ComputeBVImpl_KDOP16 s tf bv16) (8 + i) = dist (ComputeBVImpl_KDOP18 s tf bv18) (9 + i)) /\
  ((i < 9)%nat ->
   dist (ComputeBVImpl_KDOP18 s tf bv18) i = dist (ComputeBVImpl_KDOP24 s tf bv24) i /\
   dist (ComputeBVImpl_KDOP18 s tf bv18) (9 + i) = dist (ComputeBVImpl_KDOP24 s tf bv24) (12 + i)).
Proof.
  intros H16 H18 H24.
  unfold ComputeBVImpl_KDOP16, ComputeBVImpl_KDOP18, ComputeBVImpl_KDOP24. cbv zeta.
  rewrite (kdop_init_universal 8 bv16 H16), (kdop_init_universal 9 bv18 H18),
    (kdop_init_universal 12 bv24 H24).
  split; intros Hi.
  - do 8 (destruct i as [|i]; [cases_if; split; reflexivity|]). lia.
  - do 9 (destruct i as [|i]; [cases_if; split; reflexivity|]). lia.
Qed.

(** X11. For every scalar type, the sphere fit writes [num_spheres], the
    box and the first sphere only: the array keeps its length and the
    spheres at indices 1 and above are untouched. *)
Theorem kIOS_fit_frame (s : Halfspace T) (tf : Transform3 T) (bv : kIOS T) :
  let bv' := ComputeBVImpl_kIOS s tf bv in
  num_spheres bv' = 1%nat /\
  kios_obb bv' = universal_OBB /\
  List.length (spheres bv') = List.length (spheres bv) /\
  (spheres bv <> [] -> nth_error (spheres bv') 0 = Some universal_Sphere) /\
  (forall i, (1 <= i)%nat -> nth_error (spheres bv') i = nth_error (spheres bv) i).
Proof.
  cbv zeta. unfold ComputeBVImpl_kIOS, ComputeBVImpl_OBB. cbn [num_spheres kios_obb spheres].
  split; [reflexivity|]. split; [reflexivity|].
  split; [apply list_set_length|].
  destruct (spheres bv) as [|s0 rest]; split.
  - intros H. contradiction.
  - intros i Hi. reflexivity.
  - intros _. reflexivity.
  - intros [|i] Hi; [lia | reflexivity].
Qed.

End FitFacts.

Lemma KDOP_fits_agree_on_shared_directions_witness :
  List.length (@blank_KDOP PrimFloat.float _ 16) = 16%nat /\
  List.length (@blank_KDOP PrimFloat.float _ 18) = 18%nat /\
  List.length (@blank_KDOP PrimFloat.float _ 24) = 24%nat /\
  (3 < 8)%nat /\
  dist (ComputeBVImpl_KDOP16 (@halfspace_xy PrimFloat.float _) Identity (blank_KDOP 16)) (8 + 3)
  = dist (ComputeBVImpl_KDOP18 (@halfspace_xy PrimFloat.float _) Identity (blank_KDOP 18)) (9 + 3).
Proof.
  assert (H16 : List.length (@blank_KDOP PrimFloat.float _ 16) = 16%nat) by reflexivity.
  assert (H18 : List.length (@blank_KDOP PrimFloat.float _ 18) = 18%nat) by reflexivity.
  assert (H24 : List.length (@blank_KDOP PrimFloat.float _ 24) = 24%nat) by reflexivity.
  assert (H3 : (3 < 8)%nat) by lia.
  split; [exact H16|]. split; [exact H18|]. split; [exact H24|]. split; [exact H3|].
  exact (proj2 (proj1 (KDOP_fits_agree_on_shared_directions halfspace_xy Identity
                         (blank_KDOP 16) (blank_KDOP 18) (blank_KDOP 24) 3 H16 H18 H24) H3)).
Defined.

(** ** Tightness of the box and polytope fits *)

Local Open Scope R_scope.

(** X12. On the three coordinate axes the polytope fits and the box fit
    give the same bounds: entry [i] is [min[i]] and entry [k + i] is
    [max[i]]. *)
Theorem KDOP_fit_agrees_with_AABB_fit
    (s : Halfspace R) (tf : Transform3 R) (bva : AABB R) (bv16 bv18 bv24 : KDOP R) (i : nat) :
  List.length bv16 = 16%nat -> List.length bv18 = 18%nat -> List.length bv24 = 24%nat ->
  (i < 3)%nat ->
  (dist (ComputeBVImpl_KDOP16 s tf bv16) i = (min_ (ComputeBVImpl_AABB s tf bva)).[i] /\
   dist (ComputeBVImpl_KDOP16 s tf bv16) (8 + i) = (max_ (ComputeBVImpl_AABB s tf bva)).[i]) /\
  (dist (ComputeBVImpl_KDOP18 s tf bv18) i = (min_ (ComputeBVImpl_AABB s tf bva)).[i] /\
   dist (ComputeBVImpl_KDOP18 s tf bv18) (9 + i) = (max_ (ComputeBVImpl_AABB s tf bva)).[i]) /\
  (dist (ComputeBVImpl_KDOP24 s tf bv24) i = (min_ (ComputeBVImpl_AABB s tf bva)).[i] /\
   dist (ComputeBVImpl_KDOP24 s tf bv24) (12 + i) = (max_ (ComputeBVImpl_AABB s tf bva)).[i]).
Proof.
  intros H16 H18 H24 Hi. pose proof (transform_is_unit s tf) as Hu.
  unfold ComputeBVImpl_KDOP16, ComputeBVImpl_KDOP18, ComputeBVImpl_KDOP24, ComputeBVImpl_AABB.
  cbv zeta.
  rewrite (kdop_init_universal 8 bv16 H16), (kdop_init_universal 9 bv18 H18),
    (kdop_init_universal 12 bv24 H24).
  revert Hu. generalize (transform s tf). intros [[a b c] e]. unfold unit_normal.
  cbn [n d]. intros Hu. unvec.
  destruct i as [|[|[|i]]]; try lia;
    cases_R; first [repeat split; reflexivity | exfalso; subst; lra | exfalso; congruence | exfalso; nra].
Qed.

Lemma KDOP_fit_agrees_with_AABB_fit_witness :
  dist (ComputeBVImpl_KDOP16 (@halfspace_x_le_5 R _) Identity (blank_KDOP 16)) (8 + 0)
  = (max_ (ComputeBVImpl_AABB (@halfspace_x_le_5 R _) Identity blank_AABB)).[0].
Proof.
  exact (proj2 (proj1 (KDOP_fit_agrees_with_AABB_fit halfspace_x_le_5 Identity blank_AABB
                         (blank_KDOP 16) (blank_KDOP 18) (blank_KDOP 24) 0
                         (blank_KDOP_length 16) (blank_KDOP_length 18) (blank_KDOP_length 24)
                         (Nat.lt_0_succ 2)))).
Defined.

(** X13. When the transformed normal is aligned with a coordinate axis,
    the box fit is exact inside the finite range: a point of the universal
    box is in the fitted box exactly when it is in the transformed
    half-space. *)
Theorem AABB_fit_exact_when_aligned
    (s : Halfspace R) (tf : Transform3 R) (bv : AABB R) (p : Vector3 R) :
  count_zero (n (transform s tf)) = 2%nat ->
  AABB_contain universal_AABB p = true ->
  (AABB_contain (ComputeBVImpl_AABB s tf bv) p = true
   <-> halfspace_contains (transform s tf) p = true).
Proof.
  intros Hc Hin. split; [| intros Hh; apply AABB_fit_sound; assumption].
  pose proof (transform_is_unit s tf) as Hu.
  rewrite halfspace_contains_R.
  unfold ComputeBVImpl_AABB. cbv zeta.
  revert Hc Hu. generalize (transform s tf). intros [[a b c] e].
  destruct p as [x y z]. unfold unit_normal, count_zero.
  cbn [n d vget vx vy vz seq filter]. rsc. intros Hc Hu.
  unfold AABB_contain, universal_AABB in Hin.
  cbn [forallb seq min_ max_ Constant vget vx vy vz] in Hin. to_prop.
  revert Hc. unvec.
  cases_R; cbn [List.length]; intros Hc; try lia;
    unfold AABB_contain;
    cbn [forallb seq min_ max_ Constant vget vset vx vy vz]; to_prop; rsc;
    intros Hfit; first [lra | unit_axis | exfalso; subst; lra].
Qed.

Lemma AABB_fit_exact_when_aligned_witness :
  count_zero (n (transform (@halfspace_x_le_5 R _) Identity)) = 2%nat /\
  AABB_contain universal_AABB (@origin R _) = true /\
  (AABB_contain (ComputeBVImpl_AABB (@halfspace_x_le_5 R _) Identity blank_AABB) origin = true
   <-> halfspace_contains (transform (@halfspace_x_le_5 R _) Identity) origin = true).
Proof.
  assert (Ht : transform (@halfspace_x_le_5 R _) Identity = mkHalfspace (mkVector3 1 0 0) 5).
  { unfold halfspace_x_le_5. rewrite transform_Identity_abcd. exact halfspace_x_le_5_R. }
  assert (Hc : count_zero (n (transform (@halfspace_x_le_5 R _) Identity)) = 2%nat).
  { rewrite Ht. unfold count_zero. cbn [n vget vx vy vz seq filter]. rsc.
    destruct (Reqb_spec 1 0); [lra|]. destruct (Reqb_spec 0 0); [reflexivity | lra]. }
  assert (Hin : AABB_contain universal_AABB (@origin R _) = true).
  { apply universal_AABB_contains. pose proof Rmax_value_pos. unfold origin. unvec. lra. }
  split; [exact Hc|]. split; [exact Hin|].
  exact (AABB_fit_exact_when_aligned halfspace_x_le_5 Identity blank_AABB origin Hc Hin).
Defined.

Section KDOPInverse.

Context {T : Type} {ST : Scalar T}.

(** A point inside a polytope meets each of its entries. *)
Lemma KDOP_inside_set_upper_inv (D i : nat) (v : T) (bv : KDOP T) (p : Vector3 T) :
  List.length bv = (2 * D)%nat -> (i < D)%nat ->
  KDOP_inside D (set_dist (D + i) v bv) p = true ->
  sleb (kdop_direction_value i p) v = true.
Proof.
  intros Hlen Hi Hin. unfold KDOP_inside in Hin.
  rewrite forallb_forall in Hin.
  assert (Hj : In i (seq 0 D)) by (apply in_seq; lia).
  specialize (Hin i Hj). apply andb_true_iff in Hin. destruct Hin as [_ Hhi].
  unfold dist, set_dist in Hhi. rewrite nth_list_set in Hhi.
  rewrite Nat.eqb_refl in Hhi.
  replace (Nat.ltb (D + i) (List.length bv)) with true in Hhi
    by (symmetry; apply Nat.ltb_lt; lia).
  exact Hhi.
Qed.

Lemma KDOP_inside_set_lower_inv (D i : nat) (v : T) (bv : KDOP T) (p : Vector3 T) :
  List.length bv = (2 * D)%nat -> (i < D)%nat ->
  KDOP_inside D (set_dist i v bv) p = true ->
  sleb v (kdop_direction_value i p) = true.
Proof.
  intros Hlen Hi Hin. unfold KDOP_inside in Hin.
  rewrite forallb_forall in Hin.
  assert (Hj : In i (seq 0 D)) by (apply in_seq; lia).
  specialize (Hin i Hj). apply andb_true_iff in Hin. destruct Hin as [Hlo _].
  unfold dist, set_dist in Hlo. rewrite nth_list_set in Hlo.
  rewrite Nat.eqb_refl in Hlo.
  replace (Nat.ltb i (List.length bv)) with true in Hlo
    by (symmetry; apply Nat.ltb_lt; lia).
  exact Hlo.
Qed.

End KDOPInverse.

Lemma scaled_bound_inv (k a v e : R) :
  k * (a * a) = 1 ->
  (0 < a -> v <= a * e * k -> a * v <= e) /\ (a < 0 -> a * e * k <= v -> a * v <= e).
Proof.
  intros Hk.
  assert (E : e = a * (a * e * k)).
  { replace (a * (a * e * k)) with (k * (a * a) * e) by ring. rewrite Hk. ring. }
  split; intros Ha Hv; rewrite E.
  - apply Rmult_le_compat_l; lra.
  - apply Rmult_le_compat_neg_l; lra.
Qed.

Ltac kdop_entry_of Hfit :=
  lazymatch type of Hfit with
  | KDOP_inside ?D (set_dist ?k ?v ?bv) ?p = true =>
      let k' := eval compute in k in
      let lt := eval compute in (Nat.ltb k' D) in
      lazymatch lt with
      | true =>
          apply (@KDOP_inside_set_lower_inv R _ D k' v bv p (universal_KDOP_length D)
                   ltac:(lia)) in Hfit
      | false =>
          let i := eval compute in (k' - D)%nat in
          apply (@KDOP_inside_set_upper_inv R _ D i v bv p (universal_KDOP_length D)
                   ltac:(lia)) in Hfit
      end;
      apply sleb_R in Hfit;
      cbn [kdop_direction_value kdop_direction_values nth vget vx vy vz] in Hfit; rsc
  end.

Ltac kdop_scaled_inv :=
  match goal with
  | Hent : ?v <= ?a * ?e * ?k |- _ <= ?e =>
      by_sign a;
      first [ lra | refute_excluded
            | pose proof (proj1 (scaled_bound_inv k a v e ltac:(lra)) ltac:(lra) Hent); lra ]
  | Hent : ?a * ?e * ?k <= ?v |- _ <= ?e =>
      by_sign a;
      first [ lra | refute_excluded
            | pose proof (proj2 (scaled_bound_inv k a v e ltac:(lra)) ltac:(lra) Hent); lra ]
  end.

Ltac kdop_arith_inv :=
  first [ lra | congruence | unit_axis | subst; elim_sums; kdop_scaled_inv ].

Lemma KDOP16_fit_tight (s : Halfspace R) (tf : Transform3 R) (bv : KDOP R) (p : Vector3 R) :
  List.length bv = 16%nat ->
  ~ positive_xz_diagonal (n (transform s tf)) ->
  ComputeBVImpl_KDOP16 s tf bv <> universal_KDOP 8 ->
  KDOP_inside 8 (ComputeBVImpl_KDOP16 s tf bv) p = true ->
  halfspace_contains (transform s tf) p = true.
Proof.
  intros Hlen Hx. pose proof (transform_is_unit s tf) as Hu.
  rewrite halfspace_contains_R.
  unfold ComputeBVImpl_KDOP16. cbv zeta.
  rewrite (kdop_init_universal 8 bv Hlen).
  revert Hu Hx. generalize (transform s tf). intros [[a b c] e].
  destruct p as [x y z]. unfold unit_normal. intros Hu Hx.
  unvec.
  cases_R; intros Hne Hfit; try (exfalso; apply Hne; reflexivity);
    kdop_entry_of Hfit; kdop_arith_inv.
Qed.

Lemma KDOP18_fit_tight (s : Halfspace R) (tf : Transform3 R) (bv : KDOP R) (p : Vector3 R) :
  List.length bv = 18%nat ->
  ~ positive_xz_diagonal (n (transform s tf)) ->
  ComputeBVImpl_KDOP18 s tf bv <> universal_KDOP 9 ->
  KDOP_inside 9 (ComputeBVImpl_KDOP18 s tf bv) p = true ->
  halfspace_contains (transform s tf) p = true.
Proof.
  intros Hlen Hx. pose proof (transform_is_unit s tf) as Hu.
  rewrite halfspace_contains_R.
  unfold ComputeBVImpl_KDOP18. cbv zeta.
  rewrite (kdop_init_universal 9 bv Hlen).
  revert Hu Hx. generalize (transform s tf). intros [[a b c] e].
  destruct p as [x y z]. unfold unit_normal. intros Hu Hx.
  unvec.
  cases_R; intros Hne Hfit; try (exfalso; apply Hne; reflexivity);
    kdop_entry_of Hfit; kdop_arith_inv.
Qed.

Lemma KDOP24_fit_tight (s : Halfspace R) (tf : Transform3 R) (bv : KDOP R) (p : Vector3 R) :
  List.length bv = 24%nat ->
  ~ positive_xz_diagonal (n (transform s tf)) ->
  ~ xyz_antidiagonal (n (transform s tf)) ->
  ComputeBVImpl_KDOP24 s tf bv <> universal_KDOP 12 ->
  KDOP_inside 12 (ComputeBVImpl_KDOP24 s tf bv) p = true ->
  halfspace_contains (transform s tf) p = true.
Proof.
  intros Hlen Hx Hy. pose proof (transform_is_unit s tf) as Hu.
  rewrite halfspace_contains_R.
  unfold ComputeBVImpl_KDOP24. cbv zeta.
  rewrite (kdop_init_universal 12 bv Hlen).
  revert Hu Hx Hy. generalize (transform s tf). intros [[a b c] e].
  destruct p as [x y z]. unfold unit_normal. intros Hu Hx Hy.
  unvec.
  cases_R; intros Hne Hfit; try (exfalso; apply Hne; reflexivity);
    kdop_entry_of Hfit; kdop_arith_inv.
Qed.

(** X14. When a polytope fit has tightened an entry, it is exact inside
    the finite range: a point of the universal polytope is in the fitted
    polytope exactly when it is in the transformed half-space.  Stated for
    transformed normals that are not a positive multiple of [(1,0,1)] and,
    with 24 entries, not a multiple of [(1,-1,-1)]. *)
Theorem KDOP_fit_exact_when_tightened
    (s : Halfspace R) (tf : Transform3 R) (p : Vector3 R) (bv16 bv18 bv24 : KDOP R) :
  ~ positive_xz_diagonal (n (transform s tf)) ->
  (List.length bv16 = 16%nat ->
   ComputeBVImpl_KDOP16 s tf bv16 <> universal_KDOP 8 ->
   KDOP_inside 8 (universal_KDOP 8) p = true ->
   (KDOP_inside 8 (ComputeBVImpl_KDOP16 s tf bv16) p = true
    <-> halfspace_contains (transform s tf) p = true)) /\
  (List.length bv18 = 18%nat ->
   ComputeBVImpl_KDOP18 s tf bv18 <> universal_KDOP 9 ->
   KDOP_inside 9 (universal_KDOP 9) p = true ->
   (KDOP_inside 9 (ComputeBVImpl_KDOP18 s tf bv18) p = true
    <-> halfspace_contains (transform s tf) p = true)) /\
  (List.length bv24 = 24%nat ->
   ~ xyz_antidiagonal (n (transform s tf)) ->
   ComputeBVImpl_KDOP24 s tf bv24 <> universal_KDOP 12 ->
   KDOP_inside 12 (universal_KDOP 12) p = true ->
   (KDOP_inside 12 (ComputeBVImpl_KDOP24 s tf bv24) p = true
    <-> halfspace_contains (transform s tf) p = true)).
Proof.
  intros Hx. split; [|split].
  - intros Hlen Hne Hin. split.
    + apply KDOP16_fit_tight; assumption.
    + intros Hh. apply KDOP16_fit_sound; assumption.
  - intros Hlen Hne Hin. split.
    + apply KDOP18_fit_tight; assumption.
    + intros Hh. apply KDOP18_fit_sound; assumption.
  - intros Hlen Hy Hne Hin. split.
    + apply KDOP24_fit_tight; assumption.
    + intros Hh. apply KDOP24_fit_sound; assumption.
Qed.

Lemma KDOP16_fit_pos_x_branch (s : Halfspace R) (tf : Transform3 R) (bv : KDOP R) :
  List.length bv = 16%nat ->
  (n (transform s tf)).[1] = 0 ->
  (n (transform s tf)).[2] = 0 ->
  0 < (n (transform s tf)).[0] ->
  ComputeBVImpl_KDOP16 s tf bv =
  set_dist 8 (d (transform s tf)) (universal_KDOP 8).
Proof.
  intros Hlen. unfold ComputeBVImpl_KDOP16. cbv zeta.
  rewrite (kdop_init_universal 8 bv Hlen).
  generalize (transform s tf). intros [[a b c] e]. unvec. intros Hb Hc Ha.
  cases_R; first [reflexivity | exfalso; lra | exfalso; congruence].
Qed.

Lemma Rmax_value_gt_5 : 5 < Rmax_value.
Proof. unfold Rmax_value. apply IZR_lt. reflexivity. Qed.

Lemma KDOP_fit_exact_when_tightened_witness :
  ~ positive_xz_diagonal (n (transform (@halfspace_x_le_5 R _) Identity)) /\
  ComputeBVImpl_KDOP16 (@halfspace_x_le_5 R _) Identity (blank_KDOP 16) <> universal_KDOP 8 /\
  KDOP_inside 8 (universal_KDOP 8) (@origin R _) = true /\
  (KDOP_inside 8 (ComputeBVImpl_KDOP16 (@halfspace_x_le_5 R _) Identity (blank_KDOP 16)) origin
   = true
   <-> halfspace_contains (transform (@halfspace_x_le_5 R _) Identity) origin = true).
Proof.
  assert (Ht : transform (@halfspace_x_le_5 R _) Identity = mkHalfspace (mkVector3 1 0 0) 5).
  { unfold halfspace_x_le_5. rewrite transform_Identity_abcd. exact halfspace_x_le_5_R. }
  assert (Hx : ~ positive_xz_diagonal (n (transform (@halfspace_x_le_5 R _) Identity))).
  { rewrite Ht. unfold positive_xz_diagonal. cbn [n vget vx vy vz]. lra. }
  assert (Hne : ComputeBVImpl_KDOP16 (@halfspace_x_le_5 R _) Identity (blank_KDOP 16)
                <> universal_KDOP 8).
  { rewrite KDOP16_fit_pos_x_branch;
      [| apply blank_KDOP_length | rewrite Ht; reflexivity | rewrite Ht; reflexivity
       | rewrite Ht; unvec; lra ].
    rewrite Ht. cbn [d]. intros E.
    apply (f_equal (fun l => dist l 8)) in E. cbn in E.
    pose proof Rmax_value_gt_5. lra. }
  assert (Hin : KDOP_inside 8 (universal_KDOP 8) (@origin R _) = true).
  { pose proof Rmax_value_pos as HM.
    unfold KDOP_inside, universal_KDOP, origin, dist.
    cbn [forallb seq repeat app nth Nat.add kdop_direction_value kdop_direction_values
         Zero3 Constant vget vx vy vz].
    rewrite !andb_true_iff, !sleb_R. rsc. repeat split; lra. }
  split; [exact Hx|]. split; [exact Hne|]. split; [exact Hin|].
  exact (proj1 (KDOP_fit_exact_when_tightened halfspace_x_le_5 Identity origin
                  (blank_KDOP 16) (blank_KDOP 18) (blank_KDOP 24) Hx)
               (blank_KDOP_length 16) Hne Hin).
Defined.

(** ** The driver: tables, supported pairs, top-level entry points *)

Local Close Scope R_scope.

Section DriverMore.

Context {T : Type} {ST : Scalar T}.
Variables GeomData SolverInst RequestData DistanceResult : Type.
Variable distance_matrix :
  NarrowPhaseSolver -> DistanceFunctionMatrix (T:=T) GeomData SolverInst RequestData DistanceResult.
Variable default_solver : NarrowPhaseSolver -> SolverInst.

Local Notation "'run'" := (distance_solver_geom distance_matrix default_solver).
Local Notation "'run_borrowed''" :=
  (run_borrowed GeomData SolverInst RequestData DistanceResult distance_matrix default_solver).
Local Notation "'run_owned''" :=
  (run_owned GeomData SolverInst RequestData DistanceResult distance_matrix default_solver).

Lemma table_built_after_self ns (w : World (T:=T) GeomData SolverInst) :
  table_built_after ns w ns = true.
Proof.
  unfold table_built_after. destruct (table_built w ns) eqn:E; [exact E|].
  destruct ns; reflexivity.
Qed.

Lemma table_built_after_other ns ns' (w : World (T:=T) GeomData SolverInst) :
  ns' <> ns -> table_built_after ns w ns' = table_built w ns'.
Proof.
  intros Hne. unfold table_built_after. destruct (table_built w ns); [reflexivity|].
  destruct ns, ns'; try reflexivity; contradiction.
Qed.

Lemma table_events_filter ns (w : World (T:=T) GeomData SolverInst) :
  filter (@is_table_event T GeomData) (table_events ns w) = table_events ns w.
Proof. unfold table_events. destruct (table_built w ns); reflexivity. Qed.

Lemma call_event_kind ns (o1 : CollisionGeometry GeomData) (tf1 : Transform3 T)
    (o2 : CollisionGeometry GeomData) (tf2 : Transform3 T) l :
  is_table_event (call_event ns o1 tf1 o2 tf2 l) = false /\
  is_cerr_event (call_event ns o1 tf1 o2 tf2 l) = false /\
  is_call_event (call_event ns o1 tf1 o2 tf2 l) = true.
Proof. unfold call_event. destruct (is_geom_bvh o1 o2); repeat split. Qed.

(** What any defined run leaves behind. *)
Lemma run_world ns o1 tf1 o2 tf2 (nsolver_ : option loc) request result w out w' :
  run ns o1 tf1 o2 tf2 nsolver_ request result w = Some (out, w') ->
  table_built w' = table_built_after ns w /\
  filter (@is_table_event T GeomData) (new_events w w') = table_events ns w.
Proof.
  intros Hrun. destruct nsolver_ as [l|].
  - rewrite run_borrowed' in Hrun.
    destruct (consulted_cell distance_matrix ns o1 o2) as [f|].
    + destruct (nth_error (heap w) l) as [[s|]|]; try discriminate.
      injection Hrun as _ Hw. subst w'. rewrite new_events_app. cbn [table_built].
      split; [reflexivity|].
      rewrite filter_app, table_events_filter. cbn [filter].
      rewrite (proj1 (call_event_kind ns o1 tf1 o2 tf2 l)). apply app_nil_r.
    + injection Hrun as _ Hw. subst w'. rewrite new_events_app. cbn [table_built].
      split; [reflexivity|].
      rewrite filter_app, table_events_filter. apply app_nil_r.
  - rewrite run_owned' in Hrun. cbv zeta in Hrun.
    destruct (consulted_cell distance_matrix ns o1 o2) as [f|];
      injection Hrun as _ Hw; subst w'; rewrite new_events_app; cbn [table_built];
      (split; [reflexivity|]);
      cbn [app filter is_table_event]; rewrite filter_app, table_events_filter;
      cbn [filter is_table_event];
      rewrite ?(proj1 (call_event_kind ns o1 tf1 o2 tf2 (List.length (heap w))));
      apply app_nil_r.
Qed.

(** X15. The table of a solver class is constructed by the first call
    that asks for it and never again: after any defined call the table of
    its class is built, the flags of the other class are untouched, the
    call constructed the table exactly when it was not built before, and
    a later call for the same class constructs nothing. *)
Theorem table_is_built_once
    ns o1 tf1 o2 tf2 (nsolver_ : option loc) request result w out w'
    o1' tf1' o2' tf2' (nsolver_' : option loc) request' result' out' w'' :
  run ns o1 tf1 o2 tf2 nsolver_ request result w = Some (out, w') ->
  run ns o1' tf1' o2' tf2' nsolver_' request' result' w' = Some (out', w'') ->
  table_built w' ns = true /\
  (forall ns', ns' <> ns -> table_built w' ns' = table_built w ns') /\
  filter (@is_table_event T GeomData) (new_events w w')
    = (if table_built w ns then [] else [EvTableInit ns]) /\
  filter (@is_table_event T GeomData) (new_events w' w'') = [].
Proof.
  intros H1 H2.
  destruct (run_world _ _ _ _ _ _ _ _ _ _ _ H1) as [Eb Ee].
  destruct (run_world _ _ _ _ _ _ _ _ _ _ _ H2) as [_ Ee'].
  split; [rewrite Eb; apply table_built_after_self|].
  split; [intros ns' Hne; rewrite Eb; apply table_built_after_other; exact Hne|].
  split; [exact Ee|].
  rewrite Ee'. unfold table_events. rewrite Eb, table_built_after_self. reflexivity.
Qed.

(** X16. Supported pair.  When the cell the driver reads holds a
    routine, a call with the null pointer returns what the routine returns
    on a default-constructed solver, a call with a live pointer returns
    what the routine returns on the instance behind it, and a call with a
    dangling pointer is undefined; a defined call records exactly one
    routine call and no warning. *)
Theorem supported_pair_calls_routine
    ns o1 tf1 o2 tf2 request result w
    (f : DistanceFunc (T:=T) GeomData SolverInst RequestData DistanceResult) :
  consulted_cell distance_matrix ns o1 o2 = Some f ->
  (exists w',
      run ns o1 tf1 o2 tf2 None request result w
      = Some (call_value f o1 tf1 o2 tf2 (default_solver ns) request result, w') /\
      filter (@is_call_event T GeomData) (new_events w w')
      = [call_event ns o1 tf1 o2 tf2 (List.length (heap w))] /\
      filter (@is_cerr_event T GeomData) (new_events w w') = []) /\
  (forall l s, nth_error (heap w) l = Some (Some s) ->
      exists w',
        run ns o1 tf1 o2 tf2 (Some l) request result w
        = Some (call_value f o1 tf1 o2 tf2 s request result, w') /\
        filter (@is_call_event T GeomData) (new_events w w') = [call_event ns o1 tf1 o2 tf2 l] /\
        filter (@is_cerr_event T GeomData) (new_events w w') = []) /\
  (forall l, nth_error (heap w) l = None \/ nth_error (heap w) l = Some None ->
      run ns o1 tf1 o2 tf2 (Some l) request result w = None).
Proof.
  intros Hcell.
  assert (Tc : filter (@is_call_event T GeomData) (table_events ns w) = [])
    by (unfold table_events; destruct (table_built w ns); reflexivity).
  assert (Te : filter (@is_cerr_event T GeomData) (table_events ns w) = [])
    by (unfold table_events; destruct (table_built w ns); reflexivity).
  split; [|split].
  - rewrite run_owned', Hcell. cbv zeta. eexists. split; [reflexivity|].
    rewrite new_events_app.
    destruct (call_event_kind ns o1 tf1 o2 tf2 (List.length (heap w))) as (_ & Kc & Kk).
    cbn [app filter is_call_event is_cerr_event].
    rewrite !filter_app, Tc, Te. cbn [filter app is_call_event is_cerr_event].
    rewrite Kc, Kk. split; reflexivity.
  - intros l s Hl. rewrite run_borrowed', Hcell, Hl. eexists. split; [reflexivity|].
    rewrite new_events_app.
    destruct (call_event_kind ns o1 tf1 o2 tf2 l) as (_ & Kc & Kk).
    rewrite !filter_app, Tc, Te. cbn [filter app]. rewrite Kc, Kk. split; reflexivity.
  - intros l Hl. rewrite run_borrowed', Hcell. destruct Hl as [-> | ->]; reflexivity.
Qed.

Lemma with_local_run ns o1 tf1 o2 tf2 request result (w : World (T:=T) GeomData SolverInst) :
  with_local_solver default_solver ns
    (fun solver => run ns o1 tf1 o2 tf2 (Some solver) request result) w
  = Some (match consulted_cell distance_matrix ns o1 o2 with
          | None => (smax, result)
          | Some f => call_value f o1 tf1 o2 tf2 (default_solver ns) request result
          end,
          mkWorld (heap w ++ [None]) (table_built_after ns w)
                  (trace w ++ table_events ns w ++
                     match consulted_cell distance_matrix ns o1 o2 with
                     | None => [EvCerr (warning_unsupported (getNodeType o1) (getNodeType o2))]
                     | Some f => [call_event ns o1 tf1 o2 tf2 (List.length (heap w))]
                     end)).
Proof.
  unfold with_local_solver. rewrite run_borrowed'.
  cbn [heap table_built trace]. rewrite nth_error_fresh.
  destruct (consulted_cell distance_matrix ns o1 o2) as [f|];
    cbn [heap table_built trace]; rewrite list_set_fresh; reflexivity.
Qed.

(** X17. The top-level entry points with a valid solver type.  The
    call is always defined; it reports the distance and result that the
    solver-parameterized driver reports for the selected class with a null
    solver pointer; its solver object is gone on return and every other
    instance is untouched; it takes no [new] or [delete] step.  The
    overload on collision objects is the overload on geometries applied to
    the objects' geometry and transform, for every request. *)
Theorem top_level_dispatch
    (o1 o2 : CollisionGeometry GeomData) (tf1 tf2 : Transform3 T)
    (request : DistanceRequest RequestData) (result : DistanceResult)
    (w : World (T:=T) GeomData SolverInst) (ns : NarrowPhaseSolver) :
  selected_solver (gjk_solver_type request) = Some ns ->
  (exists out w',
      distance_geom distance_matrix default_solver o1 tf1 o2 tf2 request result w
      = Some (out, w') /\
      option_map fst (run ns o1 tf1 o2 tf2 None request result w) = Some out /\
      heap w' = heap w ++ [None] /\
      filter (@is_alloc_event T GeomData) (new_events w w') = []) /\
  (forall (ob1 ob2 : CollisionObject (T:=T) GeomData) request' result' w0,
      distance_obj distance_matrix default_solver ob1 ob2 request' result' w0
      = distance_geom distance_matrix default_solver
          (collisionGeometry ob1) (getTransform ob1)
          (collisionGeometry ob2) (getTransform ob2) request' result' w0).
Proof.
  intros Hsel. split.
  - assert (E : distance_geom distance_matrix default_solver o1 tf1 o2 tf2 request result w
                = with_local_solver default_solver ns
                    (fun solver => run ns o1 tf1 o2 tf2 (Some solver) request result) w).
    { unfold distance_geom, selected_solver in *.
      destruct (Z.eqb (gjk_solver_type request) GST_LIBCCD).
      - injection Hsel as <-. reflexivity.
      - destruct (Z.eqb (gjk_solver_type request) GST_INDEP); [| discriminate].
        injection Hsel as <-. reflexivity. }
    rewrite E, with_local_run, run_owned'. cbv zeta.
    eexists. eexists. split; [reflexivity|].
    split; [destruct (consulted_cell distance_matrix ns o1 o2); reflexivity|].
    cbn [heap]. split; [reflexivity|].
    rewrite new_events_app, filter_app, table_events_no_alloc.
    destruct (consulted_cell distance_matrix ns o1 o2) as [f|]; cbn [filter app];
      rewrite ?call_event_no_alloc; reflexivity.
  - intros ob1 ob2 request' result' w0. unfold distance_obj, distance_geom, distance_solver_obj.
    reflexivity.
Qed.

End DriverMore.

Lemma supported_pair_calls_routine_witness :
  consulted_cell example_matrix GJKSolver_libccd example_box example_mesh = Some example_routine /\
  returned (distance_solver_geom example_matrix example_default_solver GJKSolver_libccd
              example_box Identity example_mesh Identity None (example_request GST_LIBCCD)
              (float_of_Z 0) example_world) = Some (float_of_Z 7).
Proof.
  assert (H : consulted_cell example_matrix GJKSolver_libccd example_box example_mesh
              = Some example_routine) by reflexivity.
  split; [exact H|].
  destruct (proj1 (supported_pair_calls_routine unit nat unit PrimFloat.float
                     example_matrix example_default_solver GJKSolver_libccd
                     example_box Identity example_mesh Identity (example_request GST_LIBCCD)
                     (float_of_Z 0) example_world example_routine H)) as (w' & Hrun & _).
  rewrite Hrun. reflexivity.
Defined.

Lemma top_level_dispatch_witness :
  selected_solver (gjk_solver_type (example_request GST_INDEP)) = Some GJKSolver_indep /\
  returned (distance_geom example_matrix example_default_solver
              example_box Identity example_mesh Identity (example_request GST_INDEP)
              (float_of_Z 0) example_world) = Some (float_of_Z 7).
Proof.
  assert (H : selected_solver (gjk_solver_type (example_request GST_INDEP))
              = Some GJKSolver_indep) by reflexivity.
  split; [exact H|].
  destruct (proj1 (top_level_dispatch unit nat unit PrimFloat.float
                     example_matrix example_default_solver
                     example_box example_mesh Identity Identity (example_request GST_INDEP)
                     (float_of_Z 0) example_world GJKSolver_indep H))
    as (out & w' & Hrun & Hret & _).
  rewrite Hrun. cbn [returned option_map fst].
  injection Hret as <-. reflexivity.
Defined.

Lemma table_is_built_once_witness :
  match distance_solver_geom example_matrix example_default_solver GJKSolver_libccd
          example_box Identity example_mesh Identity None (example_request GST_LIBCCD)
          (float_of_Z 0) example_world with
  | Some (_, w') =>
      match distance_solver_geom example_matrix example_default_solver GJKSolver_libccd
              example_ball Identity example_mesh Identity None (example_request GST_LIBCCD)
              (float_of_Z 0) w' with
      | Some (_, w'') =>
          filter (@is_table_event PrimFloat.float unit) (new_events w' w'') = []
      | None => False
      end
  | None => False
  end.
Proof.
  destruct (distance_solver_geom example_matrix example_default_solver GJKSolver_libccd
              example_box Identity example_mesh Identity None (example_request GST_LIBCCD)
              (float_of_Z 0) example_world) as [[out w']|] eqn:H1;
    [| vm_compute in H1; discriminate].
  destruct (distance_solver_geom example_matrix example_default_solver GJKSolver_libccd
              example_ball Identity example_mesh Identity None (example_request GST_LIBCCD)
              (float_of_Z 0) w') as [[out' w'']|] eqn:H2.
  - exact (proj2 (proj2 (proj2 (table_is_built_once unit nat unit PrimFloat.float
             example_matrix example_default_solver GJKSolver_libccd
             example_box Identity example_mesh Identity None (example_request GST_LIBCCD)
             (float_of_Z 0) example_world out w'
             example_ball Identity example_mesh Identity None (example_request GST_LIBCCD)
             (float_of_Z 0) out' w'' H1 H2)))).
  - cbv in H1. injection H1 as _ <-. cbv in H2. discriminate.
Defined.
